(** * The epistemological framework: a diagnostic reasoning pipeline

    A shallow embedding of [computational_implementation]: the backend call
    with its retries ([utils.py]), the six phase modules
    ([medical_reasoning_phases/]), the nodes, routers and graph of
    [framework_implementation.py], and the driver of
    [logging_file_generation.py].

    The program is Python over untyped dictionaries, so values are JSON
    terms and every dictionary or list access that can raise in Python is a
    fallible operation here.  Three things live outside the repository and
    appear as an environment: the language-model backend ([ollama.chat]
    followed by [json.loads]), the random source behind [random.sample], and
    the LangGraph engine that executes the compiled graph.  The log file
    that the driver writes is a fourth. *)

From Stdlib Require Import ZArith Lia Bool Ascii Sorting.Sorted Sorting.Permutation.
From stdpp Require Import base list strings gmap.

Open Scope string_scope.
Open Scope Z_scope.
Set Warnings "-register-all".

(** ** JSON values

    What [json.loads] returns and what the nodes pass around.  Numbers are
    the integers: every number a schema of the program declares is an
    [int], and so are the numbers of the inputs.  [json.loads] also decodes
    floats, [NaN] and [Infinity] among them, which no schema of the program
    admits; a reply with such a number is not a value of this type, and the
    properties below say nothing of it.  A dictionary keeps its insertion
    order. *)

Inductive json : Type :=
| JNull
| JBool (b : bool)
| JInt (z : Z)
| JStr (s : string)
| JList (l : list json)
| JDict (d : list (string * json)).

Section JsonInduction.
Variable P : json -> Prop.
Hypothesis Hnull : P JNull.
Hypothesis Hbool : forall b, P (JBool b).
Hypothesis Hint : forall z, P (JInt z).
Hypothesis Hstr : forall s, P (JStr s).
Hypothesis Hlist : forall l, Forall P l -> P (JList l).
Hypothesis Hdict : forall d, Forall (fun kv => P (snd kv)) d -> P (JDict d).

Fixpoint json_nested_ind (j : json) : P j :=
  match j with
  | JNull => Hnull
  | JBool b => Hbool b
  | JInt z => Hint z
  | JStr s => Hstr s
  | JList l =>
      Hlist l ((fix go (l : list json) : Forall P l :=
                  match l with
                  | [] => @List.Forall_nil _ _
                  | x :: l' => @List.Forall_cons _ _ x l' (json_nested_ind x) (go l')
                  end) l)
  | JDict d =>
      Hdict d ((fix go (d : list (string * json))
                  : Forall (fun kv => P (snd kv)) d :=
                  match d with
                  | [] => @List.Forall_nil _ _
                  | kv :: d' =>
                      @List.Forall_cons _ _ kv d' (json_nested_ind (snd kv)) (go d')
                  end) d)
  end.
End JsonInduction.

Fixpoint json_eqb (a b : json) : bool :=
  match a, b with
  | JNull, JNull => true
  | JBool x, JBool y => Bool.eqb x y
  | JInt x, JInt y => Z.eqb x y
  | JStr x, JStr y => String.eqb x y
  | JList x, JList y =>
      (fix go (x y : list json) : bool :=
         match x, y with
         | [], [] => true
         | a :: x', b :: y' => json_eqb a b && go x' y'
         | _, _ => false
         end) x y
  | JDict x, JDict y =>
      (fix go (x y : list (string * json)) : bool :=
         match x, y with
         | [], [] => true
         | (k, a) :: x', (k', b) :: y' =>
             String.eqb k k' && json_eqb a b && go x' y'
         | _, _ => false
         end) x y
  | _, _ => false
  end.

(** ** Exceptions and the two monads

    [result] is a Python expression that returns or raises; [M] adds the
    position reached in the backend's and the random source's streams. *)

Inductive exn : Type :=
| KeyError (k : string)
| TypeError
| AttributeError
| ValueError
| RuntimeError (max_retries : Z)
| BackendError (code : nat)
| InvalidUpdateError
| OutOfModel.

Inductive result (A : Type) : Type :=
| Ok (a : A)
| Raise (e : exn).
Arguments Ok {A} a.
Arguments Raise {A} e.

Definition rbind {A B} (r : result A) (k : A -> result B) : result B :=
  match r with
  | Ok a => k a
  | Raise e => Raise e
  end.

Declare Scope py_scope.
Delimit Scope py_scope with py.
Notation "'let?' x ':=' e 'in' k" := (rbind e (fun x => k))
  (at level 10, x pattern, e at level 100, k at level 200) : py_scope.
Open Scope py_scope.

Fixpoint rmap {A B} (f : A -> result B) (l : list A) : result (list B) :=
  match l with
  | [] => Ok []
  | x :: l' =>
      let? y := f x in
      let? ys := rmap f l' in
      Ok (y :: ys)
  end.

(** ** The Python operations the program applies to its values *)

(** Truth value of an object ([bool(x)], as [or], [not] and [if] use it). *)
Definition truthy (j : json) : bool :=
  match j with
  | JNull => false
  | JBool b => b
  | JInt z => negb (z =? 0)
  | JStr s => negb (String.eqb s "")
  | JList l => match l with [] => false | _ => true end
  | JDict d => match d with [] => false | _ => true end
  end.

(** [x is not None]. *)
Definition is_not_none (j : json) : bool :=
  match j with
  | JNull => false
  | _ => true
  end.

(** Lookup in an insertion-ordered dictionary. *)
Fixpoint assoc (k : string) (d : list (string * json)) : option json :=
  match d with
  | [] => None
  | (k', v) :: d' => if String.eqb k k' then Some v else assoc k d'
  end.

(** [x[k]] for a text key [k]. *)
Definition getitem (x : json) (k : string) : result json :=
  match x with
  | JDict d =>
      match assoc k d with
      | Some v => Ok v
      | None => Raise (KeyError k)
      end
  | _ => Raise TypeError
  end.

(** [x.get(k, dflt)]: only dictionaries have the method. *)
Definition dict_get (x : json) (k : string) (dflt : json) : result json :=
  match x with
  | JDict d =>
      match assoc k d with
      | Some v => Ok v
      | None => Ok dflt
      end
  | _ => Raise AttributeError
  end.

(** The characters of a text, each as a one-character text. *)
Fixpoint chars (s : string) : list json :=
  match s with
  | EmptyString => []
  | String c s' => JStr (String c EmptyString) :: chars s'
  end.

(** [for v in x]: the items of a list, the keys of a dictionary, the
    characters of a text. *)
Definition py_iter (x : json) : result (list json) :=
  match x with
  | JList l => Ok l
  | JDict d => Ok (map (fun kv => JStr (fst kv)) d)
  | JStr s => Ok (chars s)
  | _ => Raise TypeError
  end.

(** [len(x)]. *)
Definition py_len (x : json) : result Z :=
  match x with
  | JList l => Ok (Z.of_nat (length l))
  | JDict d => Ok (Z.of_nat (length d))
  | JStr s => Ok (Z.of_nat (String.length s))
  | _ => Raise TypeError
  end.

(** [x.copy()]: lists and dictionaries have it. *)
Definition py_copy (x : json) : result json :=
  match x with
  | JList _ | JDict _ => Ok x
  | _ => Raise AttributeError
  end.

(** [k in x] for a text [k]: a key of a dictionary, an item of a list, a
    piece of a text. *)
Definition py_contains (k : string) (x : json) : result bool :=
  match x with
  | JDict d => Ok (match assoc k d with Some _ => true | None => false end)
  | JList l => Ok (existsb (json_eqb (JStr k)) l)
  | JStr s => Ok (match String.index 0 k s with Some _ => true | None => false end)
  | _ => Raise TypeError
  end.

(** An object used as an integer: [bool] is a subclass of [int]. *)
Definition as_int (j : json) : option Z :=
  match j with
  | JInt z => Some z
  | JBool b => Some (if b then 1 else 0)
  | _ => None
  end.

(** [x == "text"]. *)
Definition eq_str (x : json) (t : string) : bool :=
  match x with
  | JStr s => String.eqb s t
  | _ => false
  end.

(** ** Sorting by a key

    [sorted] and [list.sort] are stable and ascending.  [insert_by] puts an
    element in front of the first one whose key is not smaller, so that,
    folding from the right, equal keys keep their original order. *)

Fixpoint insert_by (x : Z * json) (l : list (Z * json)) : list (Z * json) :=
  match l with
  | [] => [x]
  | y :: l' => if fst x <=? fst y then x :: l else y :: insert_by x l'
  end.

Definition stable_sort (l : list (Z * json)) : list (Z * json) :=
  foldr insert_by [] l.

(** Sorting a list whose keys have been computed.  Integers (and booleans)
    are ordered as numbers.  [None] and dictionaries are never ordered, and
    a number is not ordered with a text or a list: [TypeError].  Python does
    order texts among themselves and lists among themselves; such keys,
    which no schema of the program admits for a rank, are left out of the
    model.  A list of at most one element needs no comparison. *)
Definition sort_keyed (l : list (json * json)) : result (list json) :=
  match rmap (fun kv => match as_int (fst kv) with
                        | Some z => Ok (z, snd kv)
                        | None => Raise TypeError
                        end) l with
  | Ok zl => Ok (map snd (stable_sort zl))
  | Raise _ =>
      match l with
      | [] | [_] => Ok (map snd l)
      | _ =>
          if forallb (fun kv => match fst kv with JStr _ => true | _ => false end) l
             || forallb (fun kv => match fst kv with JList _ => true | _ => false end) l
          then Raise OutOfModel
          else Raise TypeError
      end
  end.

(** ** Response schemas

    The pydantic models the phases pass as [response_format]; [call_llm]
    hands [model_json_schema()] to the backend.  [conforms] is validity of a
    JSON value for that schema: every declared field is required, further
    keys are allowed. *)

Inductive schema : Type :=
| SString
| SInteger
| SEnum (values : list json)
| SArray (item : schema) (min_length max_length : option nat)
| SObject (fields : list (string * schema)).

Definition within (n : nat) (lo hi : option nat) : bool :=
  match lo with Some a => (a <=? n)%nat | None => true end
  && match hi with Some b => (n <=? b)%nat | None => true end.

Fixpoint conforms (sc : schema) (j : json) : bool :=
  match sc with
  | SString => match j with JStr _ => true | _ => false end
  | SInteger => match j with JInt _ => true | _ => false end
  | SEnum values => existsb (json_eqb j) values
  | SArray item lo hi =>
      match j with
      | JList l => within (length l) lo hi && forallb (conforms item) l
      | _ => false
      end
  | SObject fields =>
      match j with
      | JDict d =>
          (fix required (fields : list (string * schema)) : bool :=
             match fields with
             | [] => true
             | (k, s) :: fields' =>
                 match assoc k d with
                 | Some v => conforms s v
                 | None => false
                 end && required fields'
             end) fields
      | _ => false
      end
  end.

Definition Literal (values : list string) : schema := SEnum (map JStr values).
Definition List_of (item : schema) : schema := SArray item None None.

(** [abstraction.py] *)
Definition FindingCategory : schema :=
  Literal ["History of Present Illness"; "Past Medical History";
           "Current Medications"; "Allergies"; "Family History";
           "Physical Examination"; "Investigations"; "Economic Stability";
           "Education Access & Quality"; "Healthcare Access & Quality";
           "Neighborhood & Built Environment"; "Social & Community Context"].

Definition Finding : schema :=
  SObject [("finding", SString); ("explanation", SString)].

Definition AbstractionFeature : schema :=
  SObject [("category", FindingCategory); ("findings", List_of Finding)].

Definition AbstractionFeaturesList : schema :=
  SObject [("features", List_of AbstractionFeature)].

(** [abduction.py] *)
Definition DiagnosticHypothesis : schema :=
  SObject [("diagnosis", SString); ("explanation", SString);
           ("supporting_features", List_of SString)].

Definition AbductionHypothesesList : schema :=
  SObject [("hypotheses", List_of DiagnosticHypothesis)].

(** [ranking.py].  [DiagnosisEnum] has one member per diagnosis passed in,
    so its values are those diagnoses. *)
Definition Rank : schema :=
  SObject [("rank", SInteger); ("parsimony", SString); ("danger", SString);
           ("cost", SString); ("curability", SString)].

Definition DiagnosisEnum (diagnoses : list json) : schema := SEnum diagnoses.

Definition ranked_diagnoses (diagnoses : list json) : schema :=
  let RankedDiagnosticHypothesis :=
    SObject [("diagnosis", DiagnosisEnum diagnoses); ("position", Rank)] in
  SObject [("hypotheses",
            SArray RankedDiagnosticHypothesis (Some 10%nat) (Some 10%nat))].

(** [deduction.py] *)
Definition ExpectedFinding : schema :=
  SObject [("description", SString);
           ("kind", Literal ["manifestation"; "test_result"; "clinical_course"]);
           ("priority", Literal ["high"; "medium"; "low"])].

Definition deduct_diagnoses (diagnoses : list json) : schema :=
  let HypothesisDeduction :=
    SObject [("diagnosis", DiagnosisEnum diagnoses);
             ("predicted_consequences", List_of ExpectedFinding)] in
  SObject [("hypotheses",
            SArray HypothesisDeduction (Some 10%nat) (Some 10%nat))].

(** [induction.py] *)
Definition EvaluatedExpectedFinding : schema :=
  SObject [("description", SString);
           ("status", Literal ["confirmed"; "not_observed"; "contradicted"]);
           ("comment", SString)].

Definition induct_diagnoses (diagnoses : list json) : schema :=
  let EvaluatedHypothesis :=
    SObject [("diagnosis", DiagnosisEnum diagnoses);
             ("evaluation", Literal ["plausible"; "refuted"]);
             ("explanation", SString);
             ("termination_recommendation",
              Literal ["sufficient_explanation_reached"; "continue_testing";
                       "reopen_abduction"]);
             ("evaluated_findings", List_of EvaluatedExpectedFinding)] in
  SObject [("hypotheses",
            SArray EvaluatedHypothesis (Some 10%nat) (Some 10%nat))].

(** ** The environment: backend and random source

    A request is what [call_llm] sends: the model name, the messages and the
    schema.  Of the messages only the values interpolated into the prompt
    are kept (the fixed text around them plays no part in the control
    flow).  A reply is what one attempt yields: content that [json.loads]
    decodes to a value, content it rejects ([JSONDecodeError]), or any other
    exception of the call.  The backend may answer the same request
    differently each time, so it is indexed by the number of calls made
    before; likewise the random source by the number of draws. *)

Record request : Type := {
  req_model : json;
  req_messages : json;
  req_format : schema
}.

Inductive reply : Type :=
| Content (j : json)
| Undecodable
| Failure (e : exn).

Record environment : Type := {
  chat : nat -> request -> reply;
  randbelow : nat -> nat -> nat
}.

Record world : Type := {
  calls : nat;
  draws : nat
}.

Definition M (A : Type) : Type := world -> result (A * world).

Definition ret {A} (a : A) : M A := fun w => Ok (a, w).
Definition raise {A} (e : exn) : M A := fun _ => Raise e.
Definition lift {A} (r : result A) : M A :=
  fun w => match r with Ok a => Ok (a, w) | Raise e => Raise e end.
Definition bind {A B} (m : M A) (k : A -> M B) : M B :=
  fun w => match m w with
           | Ok (a, w') => k a w'
           | Raise e => Raise e
           end.

Notation "'let*' x ':=' e 'in' k" := (bind e (fun x => k))
  (at level 10, x pattern, e at level 100, k at level 200) : py_scope.

(** [EpistState]: a dictionary in which every key is optional.  A node
    returns the dictionary of the keys it writes. *)
Abbreviation state := (gmap string json).

Definition prompt (phase : string) (parts : list (string * json)) : json :=
  JDict (("phase", JStr phase) :: parts).

Section Pipeline.
Variable env : environment.

(** One attempt of [call_llm]: [ollama.chat] followed by [json.loads]. *)
Definition ask (req : request) : M reply :=
  fun w => Ok (chat env (calls w) req,
               {| calls := S (calls w); draws := draws w |}).

(** [randbelow(n)] for [n > 0]: a number below [n]. *)
Definition draw (n : nat) : M nat :=
  fun w => Ok ((randbelow env (draws w) n mod n)%nat,
               {| calls := calls w; draws := S (draws w) |}).

(** ** [utils.py]: [call_llm]

    The loop over [range(1, max_retries + 1)]: content that decodes is
    returned as it is, a [JSONDecodeError] leads to the next attempt, any
    other exception is raised again at once; when the attempts are used up
    the [RuntimeError] is raised. *)
Fixpoint attempts (remaining : nat) (max_retries : Z) (req : request) : M json :=
  match remaining with
  | O => raise (RuntimeError max_retries)
  | S remaining' =>
      let* r := ask req in
      match r with
      | Content j => ret j
      | Undecodable => attempts remaining' max_retries req
      | Failure e => raise e
      end
  end.

Definition call_llm_retries (messages model : json) (response_format : schema)
    (max_retries : Z) : M json :=
  attempts (Z.to_nat max_retries) max_retries
    {| req_model := model; req_messages := messages;
       req_format := response_format |}.

Definition call_llm (messages model : json) (response_format : schema) : M json :=
  call_llm_retries messages model response_format 10.

(** ** [random.sample]

    CPython's library function as the program reaches it, with its two
    branches.  A population of at most [setsize k] items is copied to a
    pool: each draw picks a position of the pool of remaining items and the
    last remaining item moves into the vacancy.  A larger population is
    left as it is and the positions taken are remembered: each pick draws
    positions of the population until one comes that is not taken.  This
    loop ends when the random source lets it; [patience] draws in a row
    that all hit taken positions are as far as it is followed here. *)

(** The least power of 4 that is not below [bound], from [p] on. *)
Fixpoint power_of_4 (fuel p bound : nat) : nat :=
  match fuel with
  | O => p
  | S fuel' => if (bound <=? p)%nat then p else power_of_4 fuel' (4 * p) bound
  end.

(** [setsize = 21; if k > 5: setsize += 4 ** _ceil(_log(k * 3, 4))] *)
Definition setsize (k : nat) : nat :=
  (21 + if (5 <? k)%nat then power_of_4 (3 * k) 1 (3 * k) else 0)%nat.

Fixpoint sample_pool (k : nat) (pool : list json) : M (list json) :=
  match k with
  | O => ret []
  | S k' =>
      let* j := draw (length pool) in
      match pool !! j, last pool with
      | Some x, Some y =>
          let* rest := sample_pool k' (take (length pool - 1) (<[j := y]> pool)) in
          ret (x :: rest)
      | _, _ => raise ValueError
      end
  end.

Definition patience : nat := 1000.

(** [j = randbelow(n); while j in selected: j = randbelow(n)] *)
Fixpoint pick_fresh (tries n : nat) (selected : list nat) : M nat :=
  match tries with
  | O => raise OutOfModel
  | S tries' =>
      let* j := draw n in
      if existsb (Nat.eqb j) selected then pick_fresh tries' n selected
      else ret j
  end.

Fixpoint sample_set (k : nat) (population : list json) (selected : list nat)
    : M (list json) :=
  match k with
  | O => ret []
  | S k' =>
      let* j := pick_fresh patience (length population) selected in
      match population !! j with
      | Some x =>
          let* rest := sample_set k' population (j :: selected) in
          ret (x :: rest)
      | None => raise ValueError
      end
  end.

Definition random_sample (population k : json) : M (list json) :=
  match population with
  | JList _ | JStr _ =>
      let* items := lift (py_iter population) in
      match as_int k with
      | Some z =>
          if (0 <=? z) && (z <=? Z.of_nat (length items))
          then if (length items <=? setsize (Z.to_nat z))%nat
               then sample_pool (Z.to_nat z) items
               else sample_set (Z.to_nat z) items []
          else raise ValueError
      | None => raise TypeError
      end
  | _ => raise TypeError
  end.

(** ** [abstraction.py] *)

Definition abstraction_postprocessing (answer : json) : result json :=
  let? features := getitem answer "features" in
  let? features := py_iter features in
  let? groups :=
    rmap (fun feature =>
            let? category := getitem feature "category" in
            let? findings := getitem feature "findings" in
            let? findings := py_iter findings in
            rmap (fun f =>
                    let? finding := getitem f "finding" in
                    let? explanation := getitem f "explanation" in
                    Ok (JDict [("category", category); ("finding", finding);
                               ("explanation", explanation)]))
                 findings)
         features in
  Ok (JList (concat groups)).

Definition query_abstraction (case model iteration : json) : M json :=
  let messages := prompt "abstraction" [("case", case)] in
  let* answer := call_llm messages model AbstractionFeaturesList in
  lift (abstraction_postprocessing answer).

(** ** [abduction.py] *)

(** The features block both abduction prompts start with. *)
Definition features_block (abstraction_output : json) : result json :=
  let? features := py_copy abstraction_output in
  let? features := py_iter features in
  let? lines :=
    rmap (fun f =>
            let? finding := dict_get f "finding" (JStr "") in
            let? explanation := dict_get f "explanation" (JStr "") in
            Ok (JList [finding; explanation]))
         features in
  Ok (JList lines).

Definition query_abduction_unfocused
    (case abstraction_output model max_unfocused iteration : json) : M json :=
  let* features := lift (features_block abstraction_output) in
  let messages :=
    prompt "abduction_unfocused"
      [("case", case); ("features", features); ("max_unfocused", max_unfocused)] in
  call_llm messages model AbductionHypothesesList.

Definition unfocused_block (unfocused_output : json) : result json :=
  let? unfocused_hyp := dict_get unfocused_output "hypotheses" (JList []) in
  let? unfocused_hyp := py_iter unfocused_hyp in
  let? lines :=
    rmap (fun h =>
            let? diag := dict_get h "diagnosis" (JStr "") in
            let? supp := dict_get h "supporting_features" (JList []) in
            Ok (JList [diag; supp]))
         unfocused_hyp in
  Ok (JList lines).

(** [len(answer["hypotheses"]) > max_focused]: an integer against whatever
    [max_focused] is. *)
Definition exceeds (n : Z) (bound : json) : result bool :=
  match as_int bound with
  | Some z => Ok (z <? n)
  | None => Raise TypeError
  end.

(** The last lines of [query_abduction_focused]: an answer with more than
    [max_focused] hypotheses is replaced by a random sample of them. *)
Definition cap_hypotheses (answer max_focused : json) : M json :=
  let* hypotheses := lift (getitem answer "hypotheses") in
  let* n := lift (py_len hypotheses) in
  let* too_many := lift (exceeds n max_focused) in
  if too_many : bool then
    let* chosen := random_sample hypotheses max_focused in
    ret (JDict [("hypotheses", JList chosen)])
  else ret answer.

Definition query_abduction_focused
    (case abstraction_output unfocused_output model max_focused iteration : json)
    : M json :=
  let* features := lift (features_block abstraction_output) in
  let* unfocused := lift (unfocused_block unfocused_output) in
  let messages :=
    prompt "abduction_focused"
      [("case", case); ("features", features); ("unfocused", unfocused);
       ("max_focused", max_focused)] in
  let* answer := call_llm messages model AbductionHypothesesList in
  cap_hypotheses answer max_focused.

(** ** [ranking.py] *)

(** [str.lower] on the letters A to Z. *)
Definition lower_char (c : ascii) : ascii :=
  let n := nat_of_ascii c in
  if (65 <=? n)%nat && (n <=? 90)%nat then ascii_of_nat (n + 32) else c.

Fixpoint lower (s : string) : string :=
  match s with
  | EmptyString => EmptyString
  | String c s' => String (lower_char c) (lower s')
  end.

Definition summarize_evaluated_findings (findings : json)
    : result (list json * list json * list json) :=
  let? findings :=
    (if truthy findings then py_iter findings else Ok []) in
  foldl (fun acc f =>
           let? (confirmed, contradicted, not_observed) := acc in
           let? desc := dict_get f "description" (JStr "") in
           let? comm := dict_get f "comment" (JStr "") in
           let line := JList (desc :: if truthy comm then [comm] else []) in
           let? status := dict_get f "status" JNull in
           let? st :=
             (if truthy status
              then match status with
                   | JStr s => Ok (lower s)
                   | _ => Raise AttributeError
                   end
              else Ok "") in
           if String.eqb st "confirmed"
           then Ok ((confirmed ++ [line])%list, contradicted, not_observed)
           else if String.eqb st "contradicted"
           then Ok (confirmed, (contradicted ++ [line])%list, not_observed)
           else Ok (confirmed, contradicted, (not_observed ++ [line])%list))
        (Ok ([], [], [])) findings.

(** [any(f(h) for h in l)]: stops at the first true. *)
Fixpoint py_any (f : json -> result bool) (l : list json) : result bool :=
  match l with
  | [] => Ok false
  | h :: l' =>
      let? b := f h in
      if b : bool then Ok true else py_any f l'
  end.

(** One entry of [focused_lines]. *)
Definition focused_line (is_post_induction : bool) (h : json) : result json :=
  let? diag := dict_get h "diagnosis" (JStr "") in
  if is_post_induction then
    let? evaluation := dict_get h "evaluation" (JStr "unknown") in
    let? term := dict_get h "termination_recommendation" (JStr "unknown") in
    let? expl := dict_get h "explanation" (JStr "") in
    let? findings := dict_get h "evaluated_findings" (JList []) in
    let? (conf, contr, miss) := summarize_evaluated_findings findings in
    Ok (JDict [("diagnosis", diag); ("evaluation", evaluation);
               ("termination_recommendation", term); ("explanation", expl);
               ("confirmed", JList conf); ("contradicted", JList contr);
               ("not_observed", JList miss)])
  else
    let? supp := dict_get h "supporting_features" (JList []) in
    Ok (JDict [("diagnosis", diag); ("supporting_features", supp)]).

(** The key [d["position"]["rank"]]. *)
Definition position_rank (d : json) : result json :=
  let? position := getitem d "position" in
  getitem position "rank".

(** [sorted(l, key=lambda d: d["position"]["rank"])], also what
    [l.sort(key=...)] leaves in [l]: the keys are computed for the whole
    list first, then the list is ordered. *)
Definition sort_by_rank (l : list json) : result (list json) :=
  let? keyed := rmap (fun d => let? r := position_rank d in Ok (r, d)) l in
  sort_keyed keyed.

(** Everything [query_rank_hypotheses] does before the call: the messages
    and the response schema. *)
Definition ranking_request (case abduction_output model : json)
    : result request :=
  let? hypotheses := dict_get abduction_output "hypotheses" (JList []) in
  let? hypotheses := py_iter hypotheses in
  let? is_post_induction :=
    py_any (fun h =>
              let? e := py_contains "evaluation" h in
              if e : bool then Ok true
              else py_contains "evaluated_findings" h)
           hypotheses in
  let ranking_context :=
    if is_post_induction then "POST_INDUCTION" else "PRE_INDUCTION" in
  let? focused_lines := rmap (focused_line is_post_induction) hypotheses in
  let messages :=
    prompt "ranking"
      [("ranking_context", JStr ranking_context); ("case", case);
       ("hypotheses", JList focused_lines)] in
  let? focused_diagnoses :=
    rmap (fun h => dict_get h "diagnosis" (JStr "")) hypotheses in
  Ok {| req_model := model; req_messages := messages;
        req_format := ranked_diagnoses focused_diagnoses |}.

Definition query_rank_hypotheses (case abduction_output model iteration : json)
    : M json :=
  let* req := lift (ranking_request case abduction_output model) in
  let* answer := call_llm (req_messages req) (req_model req) (req_format req) in
  let* ranked :=
    lift (let? hs := getitem answer "hypotheses" in
          let? hs := py_iter hs in
          sort_by_rank hs) in
  ret (JDict [("hypotheses", JList ranked)]).

(** ** [deduction.py] *)

(** [sorted(l, key=lambda h: h.get("position", {}).get("rank", 10**9))]. *)
Definition sort_by_rank_or_last (l : list json) : result (list json) :=
  let? keyed :=
    rmap (fun h =>
            let? position := dict_get h "position" (JDict []) in
            let? r := dict_get position "rank" (JInt (10 ^ 9)) in
            Ok (r, h))
         l in
  sort_keyed keyed.

Definition query_deduction (ranking_output model iteration : json) : M json :=
  let* ranked_hypotheses :=
    lift (dict_get ranking_output "hypotheses" (JList [])) in
  let* ranked_hypotheses := lift (py_iter ranked_hypotheses) in
  let* ranked_hypotheses := lift (sort_by_rank_or_last ranked_hypotheses) in
  let* hyp_lines :=
    lift (rmap (fun h =>
                  let? diag := dict_get h "diagnosis" (JStr "") in
                  let? score := dict_get h "score" JNull in
                  let? rank := dict_get h "rank" JNull in
                  let? reas := dict_get h "reasoning_score" (JList []) in
                  Ok (JList [diag; score; rank; reas]))
               ranked_hypotheses) in
  let messages := prompt "deduction" [("hypotheses", JList hyp_lines)] in
  let* diagnoses :=
    lift (rmap (fun x => getitem x "diagnosis") ranked_hypotheses) in
  call_llm messages model (deduct_diagnoses diagnoses).

(** ** [induction.py] *)

Definition deduction_block (ded_hypotheses : list json) : result json :=
  let? lines :=
    rmap (fun h =>
            let? diag := dict_get h "diagnosis" (JStr "") in
            let? consequences := dict_get h "predicted_consequences" (JList []) in
            let? consequences := py_iter consequences in
            let? inner :=
              rmap (fun c =>
                      let? desc := dict_get c "description" (JStr "") in
                      let? kind := dict_get c "kind" (JStr "") in
                      let? priority := dict_get c "priority" (JStr "") in
                      Ok (JList [desc; kind; priority]))
                   consequences in
            Ok (JList [diag; JList inner]))
         ded_hypotheses in
  Ok (JList lines).

(** The loop that keeps the hypotheses evaluated as plausible. *)
Definition plausible_only (hypotheses : list json) : result (list json) :=
  foldl (fun acc diagnosis =>
           let? kept := acc in
           let? evaluation := getitem diagnosis "evaluation" in
           if eq_str evaluation "plausible"
           then Ok ((kept ++ [diagnosis])%list)
           else Ok kept)
        (Ok []) hypotheses.

Definition query_induction (case deduction_output model iteration : json)
    : M (json * json) :=
  let* ded_hypotheses :=
    lift (dict_get deduction_output "hypotheses" (JList [])) in
  let* ded_hypotheses := lift (py_iter ded_hypotheses) in
  let* block := lift (deduction_block ded_hypotheses) in
  let messages := prompt "induction" [("case", case); ("deduction", block)] in
  let* diagnoses :=
    lift (rmap (fun x => getitem x "diagnosis") ded_hypotheses) in
  let* answer := call_llm messages model (induct_diagnoses diagnoses) in
  let* filtered :=
    lift (let? hs := getitem answer "hypotheses" in
          let? hs := py_iter hs in
          plausible_only hs) in
  ret (answer, JDict [("hypotheses", JList filtered)]).

(** ** [framework_implementation.py]: nodes and routers *)

(** [s[k]] *)
Definition item (s : state) (k : string) : result json :=
  match s !! k with
  | Some v => Ok v
  | None => Raise (KeyError k)
  end.

(** [s.get(k, dflt)]; [s.get(k)] is [get s k JNull]. *)
Definition get (s : state) (k : string) (dflt : json) : json :=
  default dflt (s !! k).

Definition n_abstraction (s : state) : M state :=
  let* case := lift (item s "case_text") in
  let* model := lift (item s "model") in
  let* iteration := lift (item s "iter") in
  let* out := query_abstraction case model iteration in
  ret {[ "abstraction" := out ]}.

Definition route_after_abstraction (s : state) : string :=
  if is_not_none (get s "abstraction" JNull) then "continue" else "end".

Definition n_abduction_unfocused (s : state) : M state :=
  let* top_k := lift (item s "top_k") in
  let* case := lift (item s "case_text") in
  let* abstraction_output := lift (item s "abstraction") in
  let* model := lift (item s "model") in
  let* max_unfocused := lift (item s "top_k") in
  let* iteration := lift (item s "iter") in
  let* out :=
    query_abduction_unfocused case abstraction_output model max_unfocused
      iteration in
  ret {[ "abduction_unfocused" := out; "top_k" := top_k ]}.

Definition n_abduction_focused (s : state) : M state :=
  let* case := lift (item s "case_text") in
  let abstraction_output := get s "abstraction" JNull in
  let unfocused_output := get s "abduction_unfocused" JNull in
  let* model := lift (item s "model") in
  let max_focused := get s "top_k" JNull in
  let* iteration := lift (item s "iter") in
  let* out :=
    query_abduction_focused case abstraction_output unfocused_output model
      max_focused iteration in
  ret {[ "abduction_focused" := out ]}.

(** Replace the value stored under a key a dictionary has. *)
Fixpoint assoc_set (k : string) (v : json) (d : list (string * json))
    : list (string * json) :=
  match d with
  | [] => []
  | (k', v') :: d' =>
      if String.eqb k k' then (k', v) :: d' else (k', v') :: assoc_set k v d'
  end.

(** [out["hypotheses"].sort(key=lambda h: h["position"]["rank"])]: the list
    stored in [out] is sorted where it is. *)
Definition sort_hypotheses (out : json) : result json :=
  let? hypotheses := getitem out "hypotheses" in
  match hypotheses, out with
  | JList l, JDict d =>
      let? l' := sort_by_rank l in
      Ok (JDict (assoc_set "hypotheses" (JList l') d))
  | _, _ => Raise AttributeError
  end.

(** The test that selects the reranking branch of [n_ranking]. *)
Definition rerank_due (s : state) : bool :=
  is_not_none (get s "induction" JNull)
  && negb (truthy (get s "reranked" (JBool false))).

Definition n_ranking (s : state) : M state :=
  let iter_ := get s "iter" (JInt 0) in
  if rerank_due s then
    let* induction := lift (item s "induction") in
    let* hypotheses := lift (getitem induction "hypotheses") in
    let abduction_like := JDict [("hypotheses", hypotheses)] in
    let* case := lift (item s "case_text") in
    let* model := lift (item s "model") in
    let* out := query_rank_hypotheses case abduction_like model iter_ in
    let* out := lift (sort_hypotheses out) in
    ret {[ "ranking" := out; "reranked" := JBool true ]}
  else
    let* case := lift (item s "case_text") in
    let* model := lift (item s "model") in
    let abduction_output := get s "abduction_focused" JNull in
    let* out := query_rank_hypotheses case abduction_output model iter_ in
    let* out := lift (sort_hypotheses out) in
    ret {[ "ranking" := out; "reranked" := JBool false ]}.

Definition n_deduction (s : state) : M state :=
  let* ranking_output := lift (item s "ranking") in
  let* model := lift (item s "model") in
  let iteration := get s "iter" (JInt 0) in
  let* out := query_deduction ranking_output model iteration in
  ret {[ "deduction" := out ]}.

(** [x + 1] *)
Definition plus_one (x : json) : result json :=
  match as_int x with
  | Some z => Ok (JInt (z + 1))
  | None => Raise TypeError
  end.

Definition n_induction (s : state) : M state :=
  let* case := lift (item s "case_text") in
  let* model := lift (item s "model") in
  let* deduction_output := lift (item s "deduction") in
  let iteration := get s "iter" (JInt 0) in
  let* (out_all, out_plausible) :=
    query_induction case deduction_output model iteration in
  let* iter_next := lift (plus_one (get s "iter" (JInt 0))) in
  ret {[ "induction" := out_all; "induction_plausible" := out_plausible;
         "iter" := iter_next ]}.

Definition route_after_ranking (s : state) : string :=
  if truthy (get s "reranked" (JBool false)) then "end" else "continue".

(** ** The graph

    The calls [graph_definition] makes on LangGraph's [StateGraph]: each
    records a node, an edge or a router with its table from label to
    target. *)

Definition END : string := "__end__".

Record graph : Type := {
  nodes : list (string * (state -> M state));
  entry_point : option string;
  edges : list (string * string);
  branches : list (string * ((state -> string) * list (string * string)))
}.

Definition StateGraph : graph :=
  {| nodes := []; entry_point := None; edges := []; branches := [] |}.

Definition add_node (name : string) (f : state -> M state) (g : graph) : graph :=
  {| nodes := (nodes g ++ [(name, f)])%list; entry_point := entry_point g;
     edges := edges g; branches := branches g |}.

Definition set_entry_point (name : string) (g : graph) : graph :=
  {| nodes := nodes g; entry_point := Some name;
     edges := edges g; branches := branches g |}.

Definition add_edge (source target : string) (g : graph) : graph :=
  {| nodes := nodes g; entry_point := entry_point g;
     edges := (edges g ++ [(source, target)])%list; branches := branches g |}.

Definition add_conditional_edges (source : string) (router : state -> string)
    (path_map : list (string * string)) (g : graph) : graph :=
  {| nodes := nodes g; entry_point := entry_point g; edges := edges g;
     branches := (branches g ++ [(source, (router, path_map))])%list |}.

(** [graph_definition], up to [g.compile()]; the drawing of the graph that
    follows it, which has no part in a run, is left out. *)
Definition graph_definition : graph :=
  let g := StateGraph in
  let g := add_node "abstraction" n_abstraction g in
  let g := add_node "abduction_unfocused" n_abduction_unfocused g in
  let g := add_node "abduction_focused" n_abduction_focused g in
  let g := add_node "ranking" n_ranking g in
  let g := add_node "deduction" n_deduction g in
  let g := add_node "induction" n_induction g in
  let g := set_entry_point "abstraction" g in
  let g := add_edge "abstraction" "abduction_unfocused" g in
  let g := add_conditional_edges "abstraction" route_after_abstraction
             [("continue", "abduction_unfocused"); ("end", END)] g in
  let g := add_edge "abduction_unfocused" "abduction_focused" g in
  let g := add_edge "abduction_focused" "ranking" g in
  let g := add_conditional_edges "ranking" route_after_ranking
             [("continue", "deduction"); ("end", END)] g in
  let g := add_edge "deduction" "induction" g in
  let g := add_edge "induction" "ranking" g in
  g.

(** ** The engine

    LangGraph's execution of a compiled [StateGraph], as far as the program
    relies on it.  A run proceeds in steps; a step runs every active node
    on the state as it was when the step began.  After a node has returned
    its update, its outgoing edges are resolved: every plain edge leads to
    its target, and every router, applied to the state with that update
    written, selects one more target through its table.  Plain edges and
    routers add up; [END] schedules nothing.  The updates are then written
    to the state key by key, two updates of one key in one step being an
    error, and the targets become the active nodes.  The run is over when
    no node is active, and it is aborted when the step limit is reached
    before that. *)

Record step : Type := {
  node : string;
  update : state;
  values : state
}.

(** The log file of [run_with_human_log], as far as the run depends on
    it: opening it can fail, and so can writing the entry of an update.
    The entries are numbered from 0 in the order they are written;
    [writing i name update] is what writing entry [i], the one of the node
    [name] and its [update], raises, if anything. *)
Record log_file : Type := {
  opening : option exn;
  writing : nat -> string -> state -> option exn
}.

(** How a run ends: with the final state; by an exception raised in a node
    (or by the engine for it); by reaching the step limit; or by an
    exception of the log file.  [trace] are the steps whose update has been
    logged and whose state has been streamed. *)
Inductive outcome : Type :=
| Completed (trace : list step) (final : state) (w : world)
| Aborted (trace : list step) (failing : string) (e : exn)
| OutOfSteps (trace : list step)
| LogFailed (trace : list step) (e : exn).

Fixpoint lookup {A} (k : string) (l : list (string * A)) : option A :=
  match l with
  | [] => None
  | (k', v) :: l' => if String.eqb k k' then Some v else lookup k l'
  end.

Definition targets (g : graph) (name : string) (local : state)
    : result (list string) :=
  let plain :=
    map snd (List.filter (fun e => String.eqb (fst e) name) (edges g)) in
  let? chosen :=
    rmap (fun b : string * ((state -> string) * list (string * string)) =>
            let label := fst (snd b) local in
            match lookup label (snd (snd b)) with
            | Some t => Ok t
            | None => Raise (KeyError label)
            end)
         (List.filter (fun b => String.eqb (fst b) name) (branches g)) in
  Ok (List.filter (fun t => negb (String.eqb t END)) (plain ++ chosen)%list).

Inductive tasks_result : Type :=
| Done (updates : list (string * state)) (next : list string) (w : world)
| Failed (failing : string) (e : exn).

Fixpoint run_tasks (g : graph) (s : state) (active : list string) (w : world)
    : tasks_result :=
  match active with
  | [] => Done [] [] w
  | name :: active' =>
      match lookup name (nodes g) with
      | None => Failed name (KeyError name)
      | Some f =>
          match f s w with
          | Raise e => Failed name e
          | Ok (u, w') =>
              match targets g name (u ∪ s) with
              | Raise e => Failed name e
              | Ok ts =>
                  match run_tasks g s active' w' with
                  | Failed n e => Failed n e
                  | Done us next w'' => Done ((name, u) :: us) (ts ++ next)%list w''
                  end
              end
          end
      end
  end.

(** Writing the updates of one step. *)
Fixpoint write_updates (us : list (string * state)) (written : state)
    : string + state :=
  match us with
  | [] => inr written
  | (name, u) :: us' =>
      if decide (u ##ₘ written) then write_updates us' (u ∪ written)
      else inl name
  end.

(** The entries of the updates of one step, written one after the other
    from entry [i] on. *)
Fixpoint write_entries (log : log_file) (i : nat) (us : list (string * state))
    : option exn :=
  match us with
  | [] => None
  | (name, u) :: us' =>
      match writing log i name u with
      | Some e => Some e
      | None => write_entries log (S i) us'
      end
  end.

(** The stream as [run_with_human_log] consumes it: the updates of a step
    arrive first and are logged, then the state they lead to. *)
Fixpoint supersteps (log : log_file) (limit : nat) (g : graph)
    (active : list string) (s : state) (w : world) (trace : list step)
    : outcome :=
  match active with
  | [] => Completed trace s w
  | _ =>
      match limit with
      | O => OutOfSteps trace
      | S limit' =>
          match run_tasks g s active w with
          | Failed name e => Aborted trace name e
          | Done us next w' =>
              match write_entries log (length trace) us with
              | Some e => LogFailed trace e
              | None =>
                  match write_updates us ∅ with
                  | inl name => Aborted trace name InvalidUpdateError
                  | inr written =>
                      let s' := written ∪ s in
                      supersteps log limit' g (remove_dups next) s' w'
                        (trace ++ map (fun nu => {| node := fst nu;
                                                    update := snd nu;
                                                    values := s' |}) us)%list
                  end
              end
          end
      end
  end.

(** The keys of [EpistState]: the state of the graph has these and no
    others, and a key of the inputs that is none of them is dropped. *)
Definition EpistState : list string :=
  ["case_text"; "model"; "clust"; "top_k"; "abstraction";
   "abduction_unfocused"; "abduction_focused"; "ranking"; "deduction";
   "induction"; "induction_plausible"; "reranked"; "iter"; "suffix"; "stop"].

Definition map_input (inputs : state) : state :=
  foldr (fun k s => match inputs !! k with
                    | Some v => <[k := v]> s
                    | None => s
                    end) ∅ EpistState.

(** [logging_file_generation.py]: [run_with_human_log] opens the log,
    streams the graph from its entry point with [recursion_limit] 60,
    writes an entry for every update and returns the last state
    streamed. *)
Definition run_with_human_log (log : log_file) (app : graph) (inputs : state)
    (w : world) : outcome :=
  match opening log with
  | Some e => LogFailed [] e
  | None =>
      match entry_point app with
      | Some entry => supersteps log 60 app [entry] (map_input inputs) w []
      | None => Aborted [] "" ValueError
      end
  end.

End Pipeline.

(** ** A scripted backend

    A backend that answers every request once, within the schema of the
    request, and a random source; they serve as concrete inputs. *)

Module Scenario.

Definition diagnoses_of (sc : schema) : list json :=
  match sc with
  | SObject [(_, SArray (SObject ((_, SEnum ds) :: _)) _ _)] => ds
  | _ => []
  end.

Definition hypothesis (name : string) : json :=
  JDict [("diagnosis", JStr name); ("explanation", JStr "fits");
         ("supporting_features", JList [JStr "fever"])].

Definition names : list string :=
  ["d01"; "d02"; "d03"; "d04"; "d05"; "d06"; "d07"; "d08"; "d09"; "d10";
   "d11"; "d12"].

Definition position (r : Z) : json :=
  JDict [("rank", JInt r); ("parsimony", JStr "p"); ("danger", JStr "d");
         ("cost", JStr "c"); ("curability", JStr "u")].

(** Ranks are handed out from the last diagnosis to the first. *)
Definition ranked (ds : list json) : list json :=
  imap (fun i d =>
          JDict [("diagnosis", d);
                 ("position", position (Z.of_nat (length ds) - Z.of_nat i))])
       ds.

Definition predicted (d : json) : json :=
  JDict [("diagnosis", d);
         ("predicted_consequences",
          JList [JDict [("description", JStr "raised CRP");
                        ("kind", JStr "test_result");
                        ("priority", JStr "high")]])].

Definition evaluated (i : nat) (d : json) : json :=
  JDict [("diagnosis", d);
         ("evaluation", JStr (if Nat.even i then "plausible" else "refuted"));
         ("explanation", JStr "e");
         ("termination_recommendation", JStr "continue_testing");
         ("evaluated_findings",
          JList [JDict [("description", JStr "raised CRP");
                        ("status", JStr "confirmed");
                        ("comment", JStr "seen")]])].

Definition answer (req : request) : json :=
  match getitem (req_messages req) "phase" with
  | Ok (JStr "abstraction") =>
      JDict [("features",
              JList [JDict [("category", JStr "Investigations");
                            ("findings",
                             JList [JDict [("finding", JStr "fever");
                                           ("explanation", JStr "39 C")]])]])]
  | Ok (JStr "abduction_unfocused") =>
      JDict [("hypotheses", JList (map hypothesis (take 10 names)))]
  | Ok (JStr "abduction_focused") =>
      JDict [("hypotheses", JList (map hypothesis names))]
  | Ok (JStr "ranking") =>
      JDict [("hypotheses", JList (ranked (diagnoses_of (req_format req))))]
  | Ok (JStr "deduction") =>
      JDict [("hypotheses", JList (map predicted (diagnoses_of (req_format req))))]
  | Ok (JStr "induction") =>
      JDict [("hypotheses", JList (imap evaluated (diagnoses_of (req_format req))))]
  | _ => JNull
  end.

Definition backend : environment :=
  {| chat := fun _ req => Content (answer req);
     randbelow := fun i _ => (3 * i + 1)%nat |}.

(** The inputs [main.py] starts a run with. *)
Definition inputs : state :=
  {[ "case_text" := JStr "a case"; "model" := JStr "gpt-oss:20b";
     "suffix" := JStr " (plausible)"; "iter" := JInt 0; "top_k" := JInt 10 ]}.

Definition start : world := {| calls := 0; draws := 0 |}.

(** A log file that takes every entry. *)
Definition quiet : log_file :=
  {| opening := None; writing := fun _ _ _ => None |}.

(** The run of these inputs, and the state streamed after step [i] (from
    0) together with the position in the streams reached there. *)
Definition the_run : outcome :=
  run_with_human_log quiet (graph_definition backend) inputs start.

Definition state_after (i : nat) : state :=
  match the_run with
  | Completed trace _ _ =>
      match trace !! i with
      | Some st => values st
      | None => ∅
      end
  | _ => ∅
  end.

Definition before_rerank : state := state_after 5.
Definition world_before_rerank : world := {| calls := 6; draws := 10 |}.
Definition final : state := state_after 6.
Definition world_final : world := {| calls := 7; draws := 10 |}.

(** A backend that gives every hypothesis rank 1. *)
Definition tied : environment :=
  {| chat := fun _ req =>
       match getitem (req_messages req) "phase" with
       | Ok (JStr "ranking") =>
           Content
             (JDict [("hypotheses",
                      JList (map (fun d => JDict [("diagnosis", d);
                                                  ("position", position 1)])
                                 (diagnoses_of (req_format req))))])
       | _ => Content (answer req)
       end;
     randbelow := randbelow backend |}.

(** A backend whose deduction answer names a diagnosis of its own. *)
Definition inventing : environment :=
  {| chat := fun _ req =>
       match getitem (req_messages req) "phase" with
       | Ok (JStr "deduction") =>
           Content
             (JDict [("hypotheses",
                      JList (map predicted (repeat (JStr "gout") 10)))])
       | _ => Content (answer req)
       end;
     randbelow := randbelow backend |}.

(** A backend that answers well-formed JSON of no particular shape. *)
Definition shapeless : environment :=
  {| chat := fun _ _ => Content (JDict []);
     randbelow := randbelow backend |}.

End Scenario.

(** A backend made to keep to the schema: content that is not valid for
    the [format] of the request is not delivered, the call fails instead. *)
Definition obedient (base : environment) : environment :=
  {| chat := fun n req =>
       match chat base n req with
       | Content j =>
           if conforms (req_format req) j then Content j
           else Failure (BackendError 0)
       | r => r
       end;
     randbelow := randbelow base |}.

Definition trace_of (o : outcome) : list string :=
  match o with
  | Completed t _ _ | Aborted t _ _ | OutOfSteps t | LogFailed t _ =>
      map node t
  end.

(** ** Notions the properties are stated with *)

(** The rank of a ranked hypothesis, when it is a number. *)
Definition rank_of (h : json) : option Z :=
  match position_rank h with
  | Ok r => as_int r
  | Raise _ => None
  end.

Definition rank_leb (a b : json) : bool :=
  match rank_of a, rank_of b with
  | Some x, Some y => x <=? y
  | _, _ => false
  end.

(** Ascending by rank. *)
Definition sorted_by_rank (l : list json) : Prop :=
  Sorted (fun a b => rank_leb a b = true) l.

(** The backend keeps to the schema it is sent: whatever content it
    returns is valid for the [format] of the request. *)
Definition honours_format (env : environment) : Prop :=
  forall (n : nat) (req : request) (j : json),
    chat env n req = Content j -> conforms (req_format req) j = true.

(** The hypotheses of a phase output, and the diagnoses they name. *)
Definition hypotheses_of (x : json) : list json :=
  match getitem x "hypotheses" with
  | Ok (JList l) => l
  | _ => []
  end.

Definition diagnosis_of (h : json) : option json :=
  match getitem h "diagnosis" with
  | Ok d => Some d
  | Raise _ => None
  end.

Definition diagnosis_names (x : json) : list json :=
  omap diagnosis_of (hypotheses_of x).

(** The ranks of a ranking, in the order of its hypotheses. *)
Definition ranks (x : json) : list (option Z) :=
  map rank_of (hypotheses_of x).

(** The three response schemas built from a list of diagnoses. *)
Definition phase_schemas (diagnoses : list json) : list schema :=
  [ranked_diagnoses diagnoses; deduct_diagnoses diagnoses;
   induct_diagnoses diagnoses].

(** The three inputs of a run. *)
Definition inputs_keys : list string := ["case_text"; "model"; "top_k"].

(** *** The second ranking pass as the specification words it

    "Re-ranks using the plausibility-evaluated hypotheses from induction,
    re-wrapped as a hypothesis set with the same shape as an abduction
    output, discarding the induction-specific fields": the plausible
    hypotheses only, without [evaluation], [termination_recommendation] and
    [evaluated_findings]. *)
Definition discard_induction_fields (h : json) : json :=
  match h with
  | JDict d =>
      JDict (List.filter
               (fun kv =>
                  negb (String.eqb (fst kv) "evaluation"
                        || String.eqb (fst kv) "termination_recommendation"
                        || String.eqb (fst kv) "evaluated_findings"))
               d)
  | _ => h
  end.

Definition second_pass_as_specified (env : environment) (s : state)
    : M state :=
  let iter_ := get s "iter" (JInt 0) in
  let* induction := lift (item s "induction") in
  let* hypotheses := lift (getitem induction "hypotheses") in
  let* hypotheses := lift (py_iter hypotheses) in
  let* plausible := lift (plausible_only hypotheses) in
  let abduction_like :=
    JDict [("hypotheses", JList (map discard_induction_fields plausible))] in
  let* case := lift (item s "case_text") in
  let* model := lift (item s "model") in
  let* out := query_rank_hypotheses env case abduction_like model iter_ in
  let* out := lift (sort_hypotheses out) in
  ret {[ "ranking" := out; "reranked" := JBool true ]}.

(** The number of hypotheses in the ranking a node run has written. *)
Definition ranked_count (r : result (state * world)) : option nat :=
  match r with
  | Ok (u, _) => Some (length (hypotheses_of (get u "ranking" JNull)))
  | Raise _ => None
  end.

(** The node sequence of a run that goes through the loop once. *)
Definition seven_steps : list string :=
  ["abstraction"; "abduction_unfocused"; "abduction_focused"; "ranking";
   "deduction"; "induction"; "ranking"].

(** Whether a run reached its end. *)
Definition completed (o : outcome) : bool :=
  match o with
  | Completed _ _ _ => true
  | _ => false
  end.

(** The value of a key in the state streamed after step [i] (from 0). *)
Definition field_after (trace : list step) (i : nat) (k : string)
    : option json :=
  match trace !! i with
  | Some st => values st !! k
  | None => None
  end.

(** Whether a computation returned, and what a node run returned. *)
Definition succeeded {A} (r : result A) : bool :=
  match r with
  | Ok _ => true
  | Raise _ => false
  end.

Definition update_of (r : result (state * world)) : state :=
  match r with
  | Ok (u, _) => u
  | Raise _ => ∅
  end.

Definition world_of (r : result (state * world)) : world :=
  match r with
  | Ok (_, w) => w
  | Raise _ => {| calls := 0; draws := 0 |}
  end.

(** The steps a run has streamed, however it ended. *)
Definition steps_of (o : outcome) : list step :=
  match o with
  | Completed t _ _ | Aborted t _ _ | OutOfSteps t | LogFailed t _ => t
  end.

(** What an update does to the inputs of a run: it leaves [case_text] and
    [model] out, and writes [top_k], if at all, with the value it has in
    the state [s]. *)
Definition keeps_inputs (s u : state) : Prop :=
  u !! "case_text" = None /\ u !! "model" = None /\
  (u !! "top_k" = None \/ u !! "top_k" = s !! "top_k").

(** The update written at step [i] (from 0) of a run. *)
Definition update_at (o : outcome) (i : nat) : state :=
  match steps_of o !! i with
  | Some st => update st
  | None => ∅
  end.

(** What one phase executor does to the streams: it calls the backend
    through one [call_llm], at least once and at most 10 times, and never
    goes back in the random source. *)
Definition one_call (w w' : world) : Prop :=
  (calls w < calls w' <= calls w + 10)%nat /\ (draws w <= draws w')%nat.

(** What a computation returned, [dflt] standing in when it raised. *)
Definition returned {A} (dflt : A) (r : result A) : A :=
  match r with
  | Ok a => a
  | Raise _ => dflt
  end.


(** The status of an evaluated finding as [summarize_evaluated_findings]
    reads it: in lower case, a missing or empty one being the empty
    text. *)
Definition status_of (f : json) : string :=
  match dict_get f "status" JNull with
  | Ok (JStr s) => lower s
  | _ => ""
  end.

(** Whether a hypothesis is evaluated as plausible. *)
Definition is_plausible (h : json) : bool :=
  match getitem h "evaluation" with
  | Ok e => eq_str e "plausible"
  | Raise _ => false
  end.

(** * Properties *)

(** ** Values *)

Lemma list_eqb_sound (x : list json) :
  Forall (fun a => forall b, json_eqb a b = true -> a = b) x ->
  forall y,
    (fix go (x y : list json) : bool :=
       match x, y with
       | [], [] => true
       | a :: x', b :: y' => json_eqb a b && go x' y'
       | _, _ => false
       end) x y = true -> x = y.
Proof.
  induction 1 as [|a x Ha _ IH]; intros [|b y] E; try discriminate; auto.
  apply andb_prop in E as [E1 E2].
  f_equal; [apply Ha, E1 | apply IH, E2].
Qed.

Lemma dict_eqb_sound (x : list (string * json)) :
  Forall (fun kv => forall b, json_eqb (snd kv) b = true -> snd kv = b) x ->
  forall y,
    (fix go (x y : list (string * json)) : bool :=
       match x, y with
       | [], [] => true
       | (k, a) :: x', (k', b) :: y' =>
           String.eqb k k' && json_eqb a b && go x' y'
       | _, _ => false
       end) x y = true -> x = y.
Proof.
  induction 1 as [|[k a] x Ha _ IH]; intros [|[k' b] y] E;
    try discriminate; auto.
  apply andb_prop in E as [E E3]. apply andb_prop in E as [E1 E2].
  apply String.eqb_eq in E1. apply Ha in E2. simpl in E2.
  subst. f_equal. apply IH, E3.
Qed.

Lemma json_eqb_sound (a b : json) : json_eqb a b = true -> a = b.
Proof.
  revert b. induction a as [| x | x | x | l IH | d IH] using json_nested_ind;
    intros [| y | y | y | l' | d'] E; simpl in E; try discriminate; auto.
  - f_equal. apply Bool.eqb_prop, E.
  - f_equal. apply Z.eqb_eq, E.
  - f_equal. apply String.eqb_eq, E.
  - f_equal. apply (list_eqb_sound l IH), E.
  - f_equal. apply (dict_eqb_sound d IH), E.
Qed.

Lemma json_eqb_refl (a : json) : json_eqb a a = true.
Proof.
  induction a as [| x | x | x | l IH | d IH] using json_nested_ind; simpl; auto.
  - apply Bool.eqb_reflx.
  - apply Z.eqb_refl.
  - apply String.eqb_refl.
  - induction IH as [|a l Ha _ IHl]; auto. rewrite Ha. exact IHl.
  - induction IH as [|[k a] l Ha _ IHl]; auto.
    simpl in Ha. rewrite String.eqb_refl, Ha. exact IHl.
Qed.

Lemma existsb_json_eqb (j : json) (l : list json) :
  existsb (json_eqb j) l = true <-> In j l.
Proof.
  rewrite existsb_exists. split.
  - intros (x & Hx & E). apply json_eqb_sound in E. now subst.
  - intros H. exists j. split; [exact H | apply json_eqb_refl].
Qed.

(** ** The monads *)

Lemma rbind_ok {A B} (r : result A) (k : A -> result B) (b : B) :
  rbind r k = Ok b -> exists a, r = Ok a /\ k a = Ok b.
Proof. destruct r as [a|e]; simpl; [eauto | discriminate]. Qed.

Lemma bind_ok {A B} (m : M A) (k : A -> M B) (w w' : world) (b : B) :
  bind m k w = Ok (b, w') ->
  exists a w1, m w = Ok (a, w1) /\ k a w1 = Ok (b, w').
Proof.
  unfold bind. destruct (m w) as [[a w1]|e]; [eauto | discriminate].
Qed.

Lemma lift_ok {A} (r : result A) (w w' : world) (a : A) :
  lift r w = Ok (a, w') -> r = Ok a /\ w' = w.
Proof. unfold lift. destruct r; intros E; inversion E; auto. Qed.

Lemma ret_ok {A} (a b : A) (w w' : world) :
  ret a w = Ok (b, w') -> b = a /\ w' = w.
Proof. unfold ret. intros E; inversion E; auto. Qed.

(** Take a successful computation apart, one binding at a time. *)
Ltac run_inv H :=
  lazymatch type of H with
  | bind _ _ _ = Ok _ =>
      let a := fresh "a" in
      let w := fresh "w" in
      let H1 := fresh "H" in
      apply bind_ok in H as (a & w & H1 & H);
      run_inv H1; run_inv H
  | lift _ _ = Ok _ =>
      let E := fresh "E" in
      apply lift_ok in H as [H E]; subst
  | ret _ _ = Ok _ =>
      let E := fresh "E" in
      apply ret_ok in H as [H E]; subst
  | raise _ _ = Ok _ => discriminate H
  | _ => idtac
  end.


Lemma rmap_Forall2 {A B} (f : A -> result B) (l : list A) (l' : list B) :
  rmap f l = Ok l' -> Forall2 (fun x y => f x = Ok y) l l'.
Proof.
  revert l'. induction l as [|x l IH]; simpl; intros l' E.
  - inversion E. constructor.
  - apply rbind_ok in E as (y & Hy & E). apply rbind_ok in E as (ys & E1 & E).
    inversion E. constructor; auto.
Qed.

(** ** Sorting *)

Lemma insert_by_perm (x : Z * json) (l : list (Z * json)) :
  Permutation (insert_by x l) (x :: l).
Proof.
  induction l as [|y l IH]; simpl; auto.
  destruct (fst x <=? fst y); auto.
  rewrite IH. apply perm_swap.
Qed.

Lemma stable_sort_perm (l : list (Z * json)) : Permutation (stable_sort l) l.
Proof.
  induction l as [|x l IH]; simpl; auto.
  rewrite insert_by_perm. now constructor.
Qed.

Lemma insert_by_sorted (x : Z * json) (l : list (Z * json)) :
  Sorted (fun a b => fst a <= fst b) l ->
  Sorted (fun a b => fst a <= fst b) (insert_by x l).
Proof.
  induction 1 as [|y l Hs IH Hd]; simpl.
  - repeat constructor.
  - destruct (Z.leb_spec (fst x) (fst y)) as [Hle|Hgt].
    + constructor; [constructor; assumption | constructor; exact Hle].
    + constructor; [exact IH |].
      destruct l as [|z l]; simpl.
      * constructor. lia.
      * inversion Hd; subst.
        destruct (fst x <=? fst z); constructor; [lia | assumption].
  Qed.

Lemma stable_sort_sorted (l : list (Z * json)) :
  Sorted (fun a b => fst a <= fst b) (stable_sort l).
Proof.
  induction l as [|x l IH]; simpl; [constructor | now apply insert_by_sorted].
Qed.

Lemma Sorted_map_weaken {A B} (R : A -> A -> Prop) (R' : B -> B -> Prop)
    (f : A -> B) (l : list A) :
  (forall a b, In a l -> In b l -> R a b -> R' (f a) (f b)) ->
  Sorted R l -> Sorted R' (map f l).
Proof.
  intros HR Hs. induction Hs as [|a l Hs IH Hd]; simpl; constructor.
  - apply IH. intros x y Hx Hy. apply HR; now right.
  - destruct Hd as [|b l Hab]; simpl; constructor.
    apply HR; [now left | right; now left | exact Hab].
Qed.

Lemma keys_as_int (l : list (json * json)) (zl : list (Z * json)) :
  rmap (fun kv => match as_int (fst kv) with
                  | Some z => Ok (z, snd kv)
                  | None => Raise TypeError
                  end) l = Ok zl ->
  map snd zl = map snd l /\
  Forall2 (fun kv zv => as_int (fst kv) = Some (fst zv) /\ snd kv = snd zv) l zl.
Proof.
  intros E. apply rmap_Forall2 in E.
  induction E as [|kv zv l zl H _ IH]; simpl; [split; constructor|].
  destruct (as_int (fst kv)) as [z|] eqn:Hk; [|discriminate].
  inversion H; subst; simpl. destruct IH as [IH1 IH2].
  split; [now f_equal | constructor; auto].
Qed.

(** What sorting by a key achieves: the same elements, in ascending order of
    the key. *)
Lemma sort_keyed_by (key : json -> option Z) (l : list (json * json))
    (l' : list json) :
  Forall (fun kv => as_int (fst kv) = key (snd kv)) l ->
  sort_keyed l = Ok l' ->
  Permutation (map snd l) l' /\
  Sorted (fun a b => match key a, key b with
                     | Some x, Some y => x <=? y
                     | _, _ => false
                     end = true) l'.
Proof.
  intros Hkey. unfold sort_keyed.
  destruct (rmap _ l) as [zl|e] eqn:E.
  - intros H. inversion H; subst; clear H.
    apply keys_as_int in E as [Hsnd Hrel].
    split.
    + rewrite <- Hsnd. apply Permutation_map. symmetry. apply stable_sort_perm.
    + assert (Hall : Forall (fun zv => key (snd zv) = Some (fst zv)) zl).
      { clear Hsnd. induction Hrel as [|kv zv l zl [H1 H2] _ IH].
        - constructor.
        - inversion Hkey; subst. constructor; [|now apply IH].
          rewrite <- H2. congruence. }
      assert (Hall' : Forall (fun zv => key (snd zv) = Some (fst zv))
                             (stable_sort zl)).
      { rewrite List.Forall_forall in Hall |- *. intros zv Hin. apply Hall.
        eapply Permutation_in; [apply stable_sort_perm | exact Hin]. }
      rewrite List.Forall_forall in Hall'.
      eapply Sorted_map_weaken; [|apply stable_sort_sorted].
      intros a b Ha Hb Hab. simpl in Hab.
      rewrite (Hall' a Ha), (Hall' b Hb). now apply Z.leb_le.
  - destruct l as [|kv [|kv' l]].
    + intros H. inversion H. split; constructor.
    + intros H. inversion H. split; [reflexivity | repeat constructor].
    + destruct (_ || _); discriminate.
Qed.

Lemma rmap_keyed (key : json -> result json) (l : list json)
    (keyed : list (json * json)) :
  rmap (fun d => let? r := key d in Ok (r, d)) l = Ok keyed ->
  map snd keyed = l /\ Forall (fun kv => key (snd kv) = Ok (fst kv)) keyed.
Proof.
  intros E. apply rmap_Forall2 in E.
  induction E as [|d kv l keyed H _ [IH1 IH2]]; simpl; [split; constructor|].
  apply rbind_ok in H as (r & Hr & H). inversion H; subst; simpl.
  split; [reflexivity | constructor; auto].
Qed.

Lemma sort_by_rank_ok (l l' : list json) :
  sort_by_rank l = Ok l' -> Permutation l l' /\ sorted_by_rank l'.
Proof.
  unfold sort_by_rank. intros E.
  apply rbind_ok in E as (keyed & Hk & E).
  apply rmap_keyed in Hk as [Hsnd Hkeys].
  apply (sort_keyed_by rank_of) in E.
  - now rewrite Hsnd in E.
  - eapply Forall_impl; [exact Hkeys|]. intros [r d]; simpl.
    unfold rank_of. now intros ->.
Qed.

(** ** The backend call *)

Lemma attempts_spec (env : environment) (n : nat) (mx : Z) (req : request)
    (w : world) :
  match attempts env n mx req w with
  | Ok (j, w') =>
      exists k : nat,
        (k < n)%nat /\
        (forall i : nat, (i < k)%nat ->
                         chat env (calls w + i)%nat req = Undecodable) /\
        chat env (calls w + k)%nat req = Content j /\
        w' = {| calls := (calls w + k + 1)%nat; draws := draws w |}
  | Raise e =>
      (e = RuntimeError mx /\
       forall i : nat, (i < n)%nat ->
                       chat env (calls w + i)%nat req = Undecodable) \/
      (exists k : nat,
          (k < n)%nat /\
          (forall i : nat, (i < k)%nat ->
                           chat env (calls w + i)%nat req = Undecodable) /\
          chat env (calls w + k)%nat req = Failure e)
  end.
Proof.
  assert (Hshift : forall (w : world) (k : nat),
             chat env (calls w) req = Undecodable ->
             (forall i : nat, (i < k)%nat ->
                chat env (S (calls w) + i)%nat req = Undecodable) ->
             forall i : nat, (i < S k)%nat ->
                chat env (calls w + i)%nat req = Undecodable).
  { intros w0 k H0 Hk [|i] Hi; [now rewrite Nat.add_0_r|].
    replace (calls w0 + S i)%nat with (S (calls w0) + i)%nat by lia.
    apply Hk. lia. }
  revert w. induction n as [|n IH]; intros w; simpl.
  - left. split; [reflexivity | intros i Hi; lia].
  - unfold bind, ask. destruct (chat env (calls w) req) as [j| |e] eqn:Hc.
    + exists 0%nat. rewrite !Nat.add_0_r.
      split; [lia|]. split; [intros i Hi; lia|]. split; [exact Hc|].
      unfold ret. f_equal. lia.
    + specialize (IH {| calls := S (calls w); draws := draws w |}).
      destruct (attempts env n mx req _) as [[j w']|e]; simpl in IH.
      * destruct IH as (k & Hk & Hund & Hc' & ->).
        exists (S k). split; [lia|].
        split; [exact (Hshift w k Hc Hund)|].
        split; [now replace (calls w + S k)%nat
                  with (S (calls w) + k)%nat by lia|].
        f_equal. lia.
      * destruct IH as [[-> Hund]|(k & Hk & Hund & Hc')].
        -- left. split; [reflexivity|].
           exact (Hshift w n Hc Hund).
        -- right. exists (S k). split; [lia|].
           split; [exact (Hshift w k Hc Hund)|].
           now replace (calls w + S k)%nat with (S (calls w) + k)%nat by lia.
    + right. exists 0%nat. rewrite Nat.add_0_r.
      split; [lia|]. split; [intros i Hi; lia | exact Hc].
Qed.

(** A value [call_llm] returns is the content of a reply to its request. *)
Lemma call_llm_ok (env : environment) (messages model : json) (fmt : schema)
    (w w' : world) (j : json) :
  call_llm env messages model fmt w = Ok (j, w') ->
  (exists n : nat,
      chat env n {| req_model := model; req_messages := messages;
                    req_format := fmt |} = Content j) /\
  draws w' = draws w.
Proof.
  unfold call_llm, call_llm_retries. intros E.
  pose proof (attempts_spec env (Z.to_nat 10) 10
                {| req_model := model; req_messages := messages;
                   req_format := fmt |} w) as H.
  rewrite E in H. destruct H as (k & _ & _ & Hc & ->). eauto.
Qed.

(** ** Sampling *)

Lemma pool_step (pool : list json) (j : nat) (x y : json) :
  pool !! j = Some x -> last pool = Some y ->
  Permutation (x :: take (length pool - 1) (<[j := y]> pool)) pool /\
  length (take (length pool - 1) (<[j := y]> pool)) = (length pool - 1)%nat.
Proof.
  intros Hx Hy. apply last_Some in Hy as [init ->].
  rewrite length_app. simpl.
  replace (length init + 1 - 1)%nat with (length init) by lia.
  assert (Hj : (j < length init + 1)%nat).
  { apply lookup_lt_Some in Hx. rewrite length_app in Hx. exact Hx. }
  destruct (decide (j < length init)%nat) as [Hlt|Hge].
  - rewrite insert_app_l by exact Hlt.
    rewrite take_app_length' by now rewrite length_insert.
    rewrite lookup_app_l in Hx by exact Hlt.
    split; [|now rewrite length_insert].
    rewrite insert_take_drop by exact Hlt.
    pose proof (take_drop_middle init j x Hx) as Hsplit.
    revert Hsplit. generalize (take j init) (drop (S j) init).
    intros a b <-.
    transitivity (x :: y :: a ++ b)%list.
    { constructor. symmetry. apply Permutation_middle. }
    transitivity (y :: x :: a ++ b)%list; [apply perm_swap|].
    rewrite <- Permutation_cons_append. constructor.
    apply Permutation_middle.
  - assert (j = length init) as -> by lia.
    rewrite lookup_app_r in Hx by lia.
    rewrite Nat.sub_diag in Hx. inversion Hx; subst.
    rewrite list_insert_id
      by (rewrite lookup_app_r by lia; now rewrite Nat.sub_diag).
    rewrite take_app_length. split; [|reflexivity].
    apply Permutation_cons_append.
Qed.

(** Sampling never fails on a sample size within the population: it returns
    that many items, and they are items of the population taken at
    different positions, since together with the items left over they are
    the population again. *)
Lemma sample_pool_spec (env : environment) (k : nat) (pool : list json)
    (w : world) :
  (k <= length pool)%nat ->
  exists (chosen rest : list json) (w' : world),
    sample_pool env k pool w = Ok (chosen, w') /\
    length chosen = k /\
    Permutation (chosen ++ rest) pool /\
    calls w' = calls w.
Proof.
  revert pool w. induction k as [|k IH]; intros pool w Hk.
  - exists [], pool, w. repeat split; reflexivity.
  - assert (Hpos : (0 < length pool)%nat) by lia.
    set (j := (randbelow env (draws w) (length pool) mod length pool)%nat).
    assert (Hj : (j < length pool)%nat)
      by (apply Nat.mod_upper_bound; lia).
    destruct (lookup_lt_is_Some_2 pool j Hj) as [x Hx].
    destruct (proj2 (last_is_Some pool)) as [y Hy].
    { intros ->. simpl in Hpos. lia. }
    destruct (pool_step pool j x y Hx Hy) as [Hperm Hlen].
    destruct (IH (take (length pool - 1) (<[j := y]> pool))
                 {| calls := calls w; draws := S (draws w) |})
      as (chosen & rest & w' & Hrun & Hc & Hp & Hcalls).
    { rewrite Hlen. lia. }
    exists (x :: chosen), rest, w'.
    split; [|split; [|split]].
    + simpl. unfold bind at 1. unfold draw at 1. fold j.
      rewrite Hx, Hy. unfold bind. rewrite Hrun. reflexivity.
    + simpl. now f_equal.
    + simpl. rewrite <- Hperm. constructor. exact Hp.
    + exact Hcalls.
Qed.

(** ** The nodes, one by one *)

Lemma get_union_l (u s : state) (k : string) (v dflt : json) :
  u !! k = Some v -> get (u ∪ s) k dflt = v.
Proof.
  intros H. unfold get. now rewrite (lookup_union_Some_l u s k v H).
Qed.

Lemma get_union_r (u s : state) (k : string) (dflt : json) :
  u !! k = None -> get (u ∪ s) k dflt = get s k dflt.
Proof.
  intros H. unfold get. now rewrite lookup_union_r.
Qed.

Lemma abstraction_postprocessing_list (answer out : json) :
  abstraction_postprocessing answer = Ok out -> exists l, out = JList l.
Proof.
  unfold abstraction_postprocessing. intros E.
  repeat (apply rbind_ok in E as (? & _ & E)).
  inversion E. eauto.
Qed.

(** [n_abstraction] writes [abstraction] only, and what it writes is a
    list: never [None]. *)
Lemma n_abstraction_ok (env : environment) (s u : state) (w w' : world) :
  n_abstraction env s w = Ok (u, w') ->
  exists l, u = {[ "abstraction" := JList l ]}.
Proof.
  unfold n_abstraction. intros E. run_inv E.
  unfold query_abstraction in H2. run_inv H2.
  apply abstraction_postprocessing_list in H2 as [l ->].
  exists l. reflexivity.
Qed.

Lemma n_abduction_unfocused_ok (env : environment) (s u : state)
    (w w' : world) :
  n_abduction_unfocused env s w = Ok (u, w') ->
  exists out top_k,
    s !! "top_k" = Some top_k /\
    u = {[ "abduction_unfocused" := out; "top_k" := top_k ]}.
Proof.
  unfold n_abduction_unfocused. intros E. run_inv E.
  unfold item in H. destruct (s !! "top_k") as [top_k|] eqn:Hk; [|discriminate].
  inversion H; subst. eauto.
Qed.

Lemma n_abduction_focused_ok (env : environment) (s u : state)
    (w w' : world) :
  n_abduction_focused env s w = Ok (u, w') ->
  exists out, u = {[ "abduction_focused" := out ]}.
Proof.
  unfold n_abduction_focused. intros E. run_inv E. eauto.
Qed.

Lemma n_ranking_ok (env : environment) (s u : state) (w w' : world) :
  n_ranking env s w = Ok (u, w') ->
  exists out,
    u = {[ "ranking" := out; "reranked" := JBool (rerank_due s) ]}.
Proof.
  unfold n_ranking. intros E.
  destruct (rerank_due s); run_inv E; eauto.
Qed.

Lemma n_deduction_ok (env : environment) (s u : state) (w w' : world) :
  n_deduction env s w = Ok (u, w') ->
  exists out, u = {[ "deduction" := out ]}.
Proof.
  unfold n_deduction. intros E. run_inv E. eauto.
Qed.

(** What [query_induction] returns first is a dictionary: never [None]. *)
Lemma query_induction_dict (env : environment) (case ded model it : json)
    (w w' : world) (out_all out_plausible : json) :
  query_induction env case ded model it w = Ok ((out_all, out_plausible), w') ->
  exists d, out_all = JDict d.
Proof.
  unfold query_induction. intros E. run_inv E.
  inversion E; subst.
  apply rbind_ok in H4 as (hs & Hg & _).
  unfold getitem in Hg. destruct a3; try discriminate. eauto.
Qed.

Lemma n_induction_ok (env : environment) (s u : state) (w w' : world) :
  n_induction env s w = Ok (u, w') ->
  exists d out_plausible iter_next,
    u = {[ "induction" := JDict d; "induction_plausible" := out_plausible;
           "iter" := iter_next ]}.
Proof.
  unfold n_induction. intros E. run_inv E.
  destruct a2 as [out_all out_plausible]. run_inv E.
  apply query_induction_dict in H2 as [d ->]. eauto.
Qed.

(** ** The engine on this graph *)

(** A step with one active node. *)
Lemma supersteps_single (log : log_file) (g : graph) (name : string)
    (f : state -> M state) (limit : nat) (s : state) (w : world)
    (trace : list step) :
  lookup name (nodes g) = Some f ->
  supersteps log (S limit) g [name] s w trace =
  match f s w with
  | Raise e => Aborted trace name e
  | Ok (u, w') =>
      match targets g name (u ∪ s) with
      | Raise e => Aborted trace name e
      | Ok ts =>
          match writing log (length trace) name u with
          | Some e => LogFailed trace e
          | None =>
              supersteps log limit g (remove_dups ts) (u ∪ s) w'
                (trace ++ [{| node := name; update := u; values := u ∪ s |}])
          end
      end
  end.
Proof.
  intros Hf. simpl. rewrite Hf.
  destruct (f s w) as [[u w']|e]; [|reflexivity].
  destruct (targets g name (u ∪ s)) as [ts|e]; [|reflexivity].
  simpl. destruct (writing log (length trace) name u); [reflexivity|].
  destruct (decide (u ##ₘ ∅)) as [_|Hn].
  - rewrite (right_id_L ∅ (∪) u), app_nil_r. reflexivity.
  - exfalso. apply Hn. apply map_disjoint_empty_r.
Qed.

(** The steps streamed are never taken back. *)
Lemma supersteps_prefix (log : log_file) (g : graph) (limit : nat) :
  forall (active : list string) (s : state) (w : world) (trace : list step),
    exists more,
      steps_of (supersteps log limit g active s w trace) = (trace ++ more)%list.
Proof.
  induction limit as [|limit IH]; intros active s w trace.
  - destruct active; exists []; simpl; now rewrite app_nil_r.
  - destruct active as [|a active'];
      [exists []; simpl; now rewrite app_nil_r|].
    cbn [supersteps]. set (active := a :: active').
    destruct (run_tasks g s active w) as [us next w1|name e];
      [|exists []; simpl; now rewrite app_nil_r].
    destruct (write_entries log (length trace) us);
      [exists []; simpl; now rewrite app_nil_r|].
    destruct (write_updates us ∅) as [name|written];
      [exists []; simpl; now rewrite app_nil_r|].
    match goal with
    | |- exists more, steps_of (supersteps log limit g ?act ?s' ?w' (trace ++ ?new)) = _ =>
        destruct (IH act s' w' (trace ++ new)%list) as [more Hmore];
        exists (new ++ more)%list; rewrite Hmore; now rewrite app_assoc
    end.
Qed.

Lemma targets_abstraction (env : environment) (local : state) :
  targets (graph_definition env) "abstraction" local =
  Ok (if is_not_none (get local "abstraction" JNull)
      then ["abduction_unfocused"; "abduction_unfocused"]
      else ["abduction_unfocused"]).
Proof.
  unfold targets. cbn. unfold route_after_abstraction.
  destruct (is_not_none _); reflexivity.
Qed.

Lemma targets_ranking (env : environment) (local : state) :
  targets (graph_definition env) "ranking" local =
  Ok (if truthy (get local "reranked" (JBool false)) then [] else ["deduction"]).
Proof.
  unfold targets. cbn. unfold route_after_ranking.
  destruct (truthy _); reflexivity.
Qed.

Lemma targets_plain (env : environment) (local : state) :
  targets (graph_definition env) "abduction_unfocused" local
    = Ok ["abduction_focused"] /\
  targets (graph_definition env) "abduction_focused" local = Ok ["ranking"] /\
  targets (graph_definition env) "deduction" local = Ok ["induction"] /\
  targets (graph_definition env) "induction" local = Ok ["ranking"].
Proof. repeat split; reflexivity. Qed.

Lemma lookup_nodes (env : environment) :
  lookup "abstraction" (nodes (graph_definition env)) = Some (n_abstraction env) /\
  lookup "abduction_unfocused" (nodes (graph_definition env))
    = Some (n_abduction_unfocused env) /\
  lookup "abduction_focused" (nodes (graph_definition env))
    = Some (n_abduction_focused env) /\
  lookup "ranking" (nodes (graph_definition env)) = Some (n_ranking env) /\
  lookup "deduction" (nodes (graph_definition env)) = Some (n_deduction env) /\
  lookup "induction" (nodes (graph_definition env)) = Some (n_induction env).
Proof. repeat split; reflexivity. Qed.

(** The state a run starts from has the inputs under the keys of
    [EpistState]. *)
Lemma lookup_map_input (inputs : state) (k : string) :
  map_input inputs !! k
  = if bool_decide (k ∈ EpistState) then inputs !! k else None.
Proof.
  unfold map_input. generalize EpistState. intros l.
  induction l as [|k0 l IH]; [reflexivity|].
  cbn [foldr]. destruct (decide (k = k0)) as [->|Hne].
  - rewrite (bool_decide_eq_true_2 _ (list_elem_of_here k0 l)).
    destruct (inputs !! k0) as [v|] eqn:Hv.
    + apply lookup_insert_eq.
    + rewrite IH. now destruct (bool_decide _).
  - assert (Hb : bool_decide (k ∈ k0 :: l) = bool_decide (k ∈ l)).
    { apply bool_decide_ext. rewrite elem_of_cons. intuition congruence. }
    rewrite Hb. destruct (inputs !! k0) as [v|];
      [rewrite lookup_insert_ne by congruence|]; exact IH.
Qed.

Lemma get_map_input (inputs : state) (k : string) (dflt : json) :
  bool_decide (k ∈ EpistState) = true ->
  get (map_input inputs) k dflt = get inputs k dflt.
Proof. intros H. unfold get. now rewrite lookup_map_input, H. Qed.

Lemma rerank_due_map_input (inputs : state) :
  rerank_due (map_input inputs) = rerank_due inputs.
Proof. unfold rerank_due. now rewrite !get_map_input by reflexivity. Qed.

Lemma run_from_entry (log : log_file) (env : environment) (inputs : state)
    (w : world) :
  run_with_human_log log (graph_definition env) inputs w =
  match opening log with
  | Some e => LogFailed [] e
  | None =>
      supersteps log 60 (graph_definition env) ["abstraction"]
        (map_input inputs) w []
  end.
Proof. reflexivity. Qed.

(** ** The path of a run *)

(** The first step of a run is Abstraction, and the abstraction it leaves
    is a list. *)
Lemma first_step (log : log_file) (env : environment) (inputs : state)
    (w : world) :
  match steps_of (run_with_human_log log (graph_definition env) inputs w) with
  | [] => True
  | st :: _ =>
      node st = "abstraction" /\
      exists l, values st !! "abstraction" = Some (JList l)
  end.
Proof.
  rewrite run_from_entry. destruct (opening log); [exact I|].
  rewrite (supersteps_single _ _ _ _ _ _ _ _ (proj1 (lookup_nodes env))).
  destruct (n_abstraction env (map_input inputs) w) as [[u1 w1]|e] eqn:E1;
    [|exact I].
  apply n_abstraction_ok in E1 as [l ->].
  rewrite targets_abstraction.
  destruct (writing log _ _ _); [exact I|].
  match goal with
  | |- match steps_of (supersteps log ?n ?g ?a ?s ?w' ?t) with _ => _ end =>
      destruct (supersteps_prefix log g n a s w' t) as [more ->]
  end.
  simpl. split; [reflexivity|]. exists l.
  apply lookup_union_Some_l, lookup_singleton_eq.
Qed.

(** Whatever the inputs, the backend and the log file, the nodes run are a
    beginning of the path of seven steps. *)
Lemma run_path (log : log_file) (env : environment) (inputs : state)
    (w : world) :
  match run_with_human_log log (graph_definition env) inputs w with
  | Completed trace final _ =>
      map node trace = (if rerank_due inputs then take 4 seven_steps
                        else seven_steps) /\
      final !! "reranked" = Some (JBool true) /\
      (exists out, final !! "ranking" = Some out) /\
      field_after trace 3 "reranked" = Some (JBool (rerank_due inputs)) /\
      (if rerank_due inputs
       then (values <$> trace !! 3%nat) = Some final
       else field_after trace 6 "reranked" = Some (JBool true) /\
            (values <$> trace !! 6%nat) = Some final)
  | Aborted trace failing e =>
      exists rest, (map node trace ++ failing :: rest)%list = seven_steps
  | LogFailed trace e =>
      exists name rest, (map node trace ++ name :: rest)%list = seven_steps
  | OutOfSteps _ => False
  end.
Proof.
  destruct (lookup_nodes env) as (L1 & L2 & L3 & L4 & L5 & L6).
  rewrite run_from_entry.
  destruct (opening log); [exists "abstraction", (tail seven_steps); reflexivity|].
  set (s0 := map_input inputs).
  rewrite (supersteps_single _ _ _ _ _ _ _ _ L1).
  destruct (n_abstraction env s0 w) as [[u1 w1]|e] eqn:E1;
    [|exists (tail seven_steps); reflexivity].
  apply n_abstraction_ok in E1 as [l ->].
  rewrite targets_abstraction.
  rewrite (get_union_l _ _ _ (JList l)) by apply lookup_singleton_eq.
  cbn [is_not_none]. change (remove_dups _) with ["abduction_unfocused"].
  destruct (writing log _ _ _);
    [exists "abstraction", (tail seven_steps); reflexivity|].
  set (s1 := _ ∪ s0).
  rewrite (supersteps_single _ _ _ _ _ _ _ _ L2).
  destruct (n_abduction_unfocused env s1 w1) as [[u2 w2]|e] eqn:E2;
    [|exists (drop 2 seven_steps); reflexivity].
  apply n_abduction_unfocused_ok in E2 as (o2 & tk & _ & ->).
  rewrite (proj1 (targets_plain env _)).
  change (remove_dups _) with ["abduction_focused"].
  destruct (writing log _ _ _);
    [exists "abduction_unfocused", (drop 2 seven_steps); reflexivity|].
  set (s2 := _ ∪ s1).
  rewrite (supersteps_single _ _ _ _ _ _ _ _ L3).
  destruct (n_abduction_focused env s2 w2) as [[u3 w3]|e] eqn:E3;
    [|exists (drop 3 seven_steps); reflexivity].
  apply n_abduction_focused_ok in E3 as (o3 & ->).
  rewrite (proj1 (proj2 (targets_plain env _))).
  change (remove_dups _) with ["ranking"].
  destruct (writing log _ _ _);
    [exists "abduction_focused", (drop 3 seven_steps); reflexivity|].
  set (s3 := _ ∪ s2).
  rewrite (supersteps_single _ _ _ _ _ _ _ _ L4).
  destruct (n_ranking env s3 w3) as [[u4 w4]|e] eqn:E4;
    [|exists (drop 4 seven_steps); reflexivity].
  apply n_ranking_ok in E4 as (o4 & ->).
  assert (R3 : rerank_due s3 = rerank_due inputs).
  { rewrite <- (rerank_due_map_input inputs). fold s0.
    unfold rerank_due, s3, s2, s1.
    rewrite !get_union_r by (by simplify_map_eq). reflexivity. }
  rewrite R3. rewrite targets_ranking.
  destruct (rerank_due inputs) eqn:R0.
  - rewrite (get_union_l _ _ _ (JBool true)) by (by simplify_map_eq).
    cbn [truthy remove_dups].
    destruct (writing log _ _ _);
      [exists "ranking", (drop 4 seven_steps); reflexivity|].
    cbn [supersteps].
    split; [reflexivity|].
    split; [apply lookup_union_Some_l; by simplify_map_eq|].
    split; [exists o4; apply lookup_union_Some_l; by simplify_map_eq|].
    split; [unfold field_after; cbn;
            apply lookup_union_Some_l; by simplify_map_eq|].
    reflexivity.
  - rewrite (get_union_l _ _ _ (JBool false)) by (by simplify_map_eq).
    cbn [truthy]. change (remove_dups _) with ["deduction"].
    destruct (writing log _ _ _);
      [exists "ranking", (drop 4 seven_steps); reflexivity|].
    set (s4 := _ ∪ s3).
    rewrite (supersteps_single _ _ _ _ _ _ _ _ L5).
    destruct (n_deduction env s4 w4) as [[u5 w5]|e] eqn:E5;
      [|exists (drop 5 seven_steps); reflexivity].
    apply n_deduction_ok in E5 as (o5 & ->).
    rewrite (proj1 (proj2 (proj2 (targets_plain env _)))).
    change (remove_dups _) with ["induction"].
    destruct (writing log _ _ _);
      [exists "deduction", (drop 5 seven_steps); reflexivity|].
    set (s5 := _ ∪ s4).
    rewrite (supersteps_single _ _ _ _ _ _ _ _ L6).
    destruct (n_induction env s5 w5) as [[u6 w6]|e] eqn:E6;
      [|exists (drop 6 seven_steps); reflexivity].
    apply n_induction_ok in E6 as (d & op & it & ->).
    rewrite (proj2 (proj2 (proj2 (targets_plain env _)))).
    change (remove_dups _) with ["ranking"].
    destruct (writing log _ _ _);
      [exists "induction", (drop 6 seven_steps); reflexivity|].
    set (s6 := _ ∪ s5).
    rewrite (supersteps_single _ _ _ _ _ _ _ _ L4).
    destruct (n_ranking env s6 w6) as [[u7 w7]|e] eqn:E7;
      [|exists []; reflexivity].
    apply n_ranking_ok in E7 as (o7 & ->).
    assert (R6 : rerank_due s6 = true).
    { unfold rerank_due, s6.
      rewrite (get_union_l _ _ _ (JDict d)) by (by simplify_map_eq).
      unfold s5, s4.
      rewrite !get_union_r by (by simplify_map_eq).
      rewrite (get_union_l _ _ _ (JBool false)) by (by simplify_map_eq).
      reflexivity. }
    rewrite R6. rewrite targets_ranking.
    rewrite (get_union_l _ _ _ (JBool true)) by (by simplify_map_eq).
    cbn [truthy remove_dups].
    destruct (writing log _ _ _); [exists "ranking", []; reflexivity|].
    cbn [supersteps].
    split; [reflexivity|].
    split; [apply lookup_union_Some_l; by simplify_map_eq|].
    split; [exists o7; apply lookup_union_Some_l; by simplify_map_eq|].
    split; [unfold field_after; cbn; unfold s4;
            apply lookup_union_Some_l; by simplify_map_eq|].
    split; [unfold field_after; cbn;
            apply lookup_union_Some_l; by simplify_map_eq | reflexivity].
Qed.

(** C1. Whatever the inputs, the backend and the log file, a run walks the
    path Abstraction, AbductionUnfocused, AbductionFocused, Ranking,
    Deduction, Induction, Ranking: it either completes on it, or is cut
    short on it, by an exception raised in the node that is next or by the
    log file, and it never reaches the step limit.  In a complete run the
    abstraction written at step 1 is a (possibly empty) list.  A complete
    run takes exactly these 7 steps, with [reranked] false after step 4
    and true after step 7, unless its inputs carry an induction result not
    yet reranked; it then takes the first 4 steps only, the first Ranking
    being the re-ranking, and [reranked] is true after step 4.  Either way
    the last step leaves the final state. *)
Theorem run_takes_seven_steps (log : log_file) (env : environment)
    (inputs : state) (w : world) :
  match run_with_human_log log (graph_definition env) inputs w with
  | Completed trace final _ =>
      (exists l, field_after trace 0 "abstraction" = Some (JList l)) /\
      if rerank_due inputs
      then map node trace = take 4 seven_steps /\
           field_after trace 3 "reranked" = Some (JBool true) /\
           (values <$> trace !! 3%nat) = Some final
      else map node trace = seven_steps /\
           field_after trace 3 "reranked" = Some (JBool false) /\
           field_after trace 6 "reranked" = Some (JBool true) /\
           (values <$> trace !! 6%nat) = Some final
  | Aborted trace failing e =>
      exists rest, (map node trace ++ failing :: rest)%list = seven_steps
  | LogFailed trace e =>
      exists name rest, (map node trace ++ name :: rest)%list = seven_steps
  | OutOfSteps _ => False
  end.
Proof.
  pose proof (run_path log env inputs w) as P.
  pose proof (first_step log env inputs w) as F.
  destruct (run_with_human_log log (graph_definition env) inputs w)
    as [trace final w'|trace failing e|trace|trace e]; try exact P.
  destruct P as (P1 & _ & _ & P4 & P5). split.
  - simpl in F. destruct trace as [|st trace].
    + destruct (rerank_due inputs); discriminate P1.
    + destruct F as (_ & l & Hl). exists l. exact Hl.
  - destruct (rerank_due inputs).
    + split; [exact P1|]. split; [exact P4 | exact P5].
    + destruct P5 as [P6 P7].
      split; [exact P1|]. split; [exact P4|]. split; [exact P6 | exact P7].
Qed.

(** With the scripted backend and a log file that takes every entry, the
    run of [main.py]'s inputs is complete and takes the 7 steps. *)
Lemma run_takes_seven_steps_witness :
  rerank_due Scenario.inputs = false /\
  completed Scenario.the_run = true /\
  trace_of Scenario.the_run = seven_steps /\
  match run_with_human_log Scenario.quiet (graph_definition Scenario.backend)
          Scenario.inputs Scenario.start with
  | Completed trace final _ =>
      (exists l, field_after trace 0 "abstraction" = Some (JList l)) /\
      if rerank_due Scenario.inputs
      then map node trace = take 4 seven_steps /\
           field_after trace 3 "reranked" = Some (JBool true) /\
           (values <$> trace !! 3%nat) = Some final
      else map node trace = seven_steps /\
           field_after trace 3 "reranked" = Some (JBool false) /\
           field_after trace 6 "reranked" = Some (JBool true) /\
           (values <$> trace !! 6%nat) = Some final
  | Aborted trace failing e =>
      exists rest, (map node trace ++ failing :: rest)%list = seven_steps
  | LogFailed trace e =>
      exists name rest, (map node trace ++ name :: rest)%list = seven_steps
  | OutOfSteps _ => False
  end.
Proof.
  split; [vm_compute; reflexivity|].
  split; [vm_compute; reflexivity|].
  split; [vm_compute; reflexivity|].
  exact (run_takes_seven_steps Scenario.quiet Scenario.backend Scenario.inputs
           Scenario.start).
Defined.

(** The same inputs with an induction result among them: Abstraction
    yields its list, and the run is complete after 4 steps, the first
    Ranking being the re-ranking. *)
Lemma run_with_an_induction_result_takes_four_steps :
  let inputs : state :=
    <[ "induction" := JDict [("hypotheses",
                              JList [Scenario.evaluated 0 (JStr "d01")])] ]>
      Scenario.inputs in
  let o := run_with_human_log Scenario.quiet (graph_definition Scenario.backend)
             inputs Scenario.start in
  completed o = true /\
  trace_of o = ["abstraction"; "abduction_unfocused"; "abduction_focused";
                "ranking"] /\
  is_not_none (default JNull (field_after (steps_of o) 0 "abstraction")) = true /\
  field_after (steps_of o) 3 "reranked" = Some (JBool true).
Proof. intros inputs o. repeat split; vm_compute; reflexivity. Qed.


(** After Abstraction the engine always schedules AbductionUnfocused: the
    plain edge leads there whatever the router answers. *)
Lemma abstraction_always_continues (env : environment) (local : state) :
  exists ts, targets (graph_definition env) "abstraction" local = Ok ts /\
             remove_dups ts = ["abduction_unfocused"].
Proof.
  rewrite targets_abstraction.
  destruct (is_not_none _); eexists; split; reflexivity.
Qed.

(** ** Schemas *)

Lemma conforms_ten (item : schema) (out : json) :
  conforms (SObject [("hypotheses",
                      SArray item (Some 10%nat) (Some 10%nat))]) out = true ->
  exists l, getitem out "hypotheses" = Ok (JList l) /\
            length l = 10%nat /\
            Forall (fun h => conforms item h = true) l.
Proof.
  destruct out as [| | | | |d]; simpl; try discriminate.
  destruct (assoc "hypotheses" d) as [v|]; [|discriminate].
  rewrite andb_true_r.
  destruct v as [| | | |l|]; try discriminate.
  intros H. apply andb_prop in H as [Hlen Hall].
  exists l. split; [reflexivity|]. split.
  - unfold within in Hlen. apply andb_prop in Hlen as [H1 H2].
    apply Nat.leb_le in H1, H2. lia.
  - apply List.Forall_forall. intros h Hh.
    rewrite forallb_forall in Hall. apply Hall, Hh.
Qed.

Lemma conforms_diagnosis (diagnoses : list json)
    (others : list (string * schema)) (h : json) :
  conforms (SObject (("diagnosis", DiagnosisEnum diagnoses) :: others)) h = true ->
  exists d, getitem h "diagnosis" = Ok d /\ In d diagnoses.
Proof.
  destruct h as [| | | | |hd]; simpl; try discriminate.
  destruct (assoc "diagnosis" hd) as [d|]; [|discriminate].
  intros H. apply andb_prop in H as [H _].
  exists d. split; [reflexivity|]. now apply existsb_json_eqb.
Qed.

(** A value valid for one of the three schemas has exactly 10 hypotheses,
    each naming one of the diagnoses the schema was built from. *)
Lemma phase_schema_valid (diagnoses : list json) (sc : schema) (out : json) :
  In sc (phase_schemas diagnoses) ->
  conforms sc out = true ->
  length (hypotheses_of out) = 10%nat /\
  Forall (fun h => exists d, diagnosis_of h = Some d /\ In d diagnoses)
         (hypotheses_of out).
Proof.
  intros Hsc Hc.
  assert (exists item others,
             sc = SObject [("hypotheses",
                            SArray (SObject (("diagnosis",
                                              DiagnosisEnum diagnoses)
                                             :: others))
                                   (Some 10%nat) (Some 10%nat))]
             /\ item = SObject (("diagnosis", DiagnosisEnum diagnoses) :: others))
    as (item & others & -> & Hitem).
  { destruct Hsc as [<-|[<-|[<-|[]]]]; eexists _, _; split; reflexivity. }
  apply conforms_ten in Hc as (l & Hl & Hlen & Hall).
  unfold hypotheses_of. rewrite Hl. split; [exact Hlen|].
  eapply Forall_impl; [exact Hall|]. intros h Hh.
  apply conforms_diagnosis in Hh as (d & Hd & Hin).
  exists d. unfold diagnosis_of. rewrite Hd. auto.
Qed.

Lemma omap_total {A B} (f : A -> option B) (P : B -> Prop) (l : list A) :
  Forall (fun x => exists y, f x = Some y /\ P y) l ->
  length (omap f l) = length l /\ Forall P (omap f l).
Proof.
  induction 1 as [|x l (y & Hy & HP) _ [IH1 IH2]]; simpl.
  - split; constructor.
  - rewrite Hy. simpl. split; [now f_equal | now constructor].
Qed.

(** C8. Each of the three response schemas admits only outputs of exactly
    10 hypotheses, whatever the diagnoses it was built from, and every
    hypothesis of a valid output names one of those diagnoses.  Hence no
    valid output exists for an empty list of diagnoses, and for a list of any
    size other than 10 no valid output names each diagnosis exactly once. *)
Theorem schemas_fix_ten_hypotheses (diagnoses : list json) (sc : schema)
    (out : json) :
  In sc (phase_schemas diagnoses) ->
  conforms sc out = true ->
  length (hypotheses_of out) = 10%nat /\
  length (diagnosis_names out) = 10%nat /\
  Forall (fun d => In d diagnoses) (diagnosis_names out) /\
  diagnoses <> [] /\
  (length diagnoses <> 10%nat ->
   ~ Permutation (diagnosis_names out) diagnoses).
Proof.
  intros Hsc Hc.
  destruct (phase_schema_valid diagnoses sc out Hsc Hc) as [Hlen Hall].
  destruct (omap_total diagnosis_of (fun d => In d diagnoses) _ Hall)
    as [Hn Hin].
  fold (diagnosis_names out) in Hn, Hin.
  split; [exact Hlen|]. split; [congruence|]. split; [exact Hin|]. split.
  - intros ->. destruct (diagnosis_names out) as [|d l]; [simpl in *; lia|].
    inversion Hin as [|? ? []].
  - intros Hne Hp. apply Permutation_length in Hp. lia.
Qed.

(** For one diagnosis each of the three schemas has a valid output: the
    same diagnosis ten times. *)
Lemma schemas_fix_ten_hypotheses_witness :
  In (ranked_diagnoses [JStr "flu"]) (phase_schemas [JStr "flu"]) /\
  conforms (ranked_diagnoses [JStr "flu"])
    (JDict [("hypotheses",
             JList (map (fun d => JDict [("diagnosis", d);
                                         ("position", Scenario.position 1)])
                        (repeat (JStr "flu") 10)))]) = true /\
  length (diagnosis_names
            (JDict [("hypotheses",
                     JList (map (fun d => JDict [("diagnosis", d);
                                                 ("position", Scenario.position 1)])
                                (repeat (JStr "flu") 10)))])) = 10%nat.
Proof.
  assert (Hin : In (ranked_diagnoses [JStr "flu"]) (phase_schemas [JStr "flu"]))
    by (left; reflexivity).
  assert (Hc : conforms (ranked_diagnoses [JStr "flu"])
    (JDict [("hypotheses",
             JList (map (fun d => JDict [("diagnosis", d);
                                         ("position", Scenario.position 1)])
                        (repeat (JStr "flu") 10)))]) = true)
    by (vm_compute; reflexivity).
  split; [exact Hin|]. split; [exact Hc|].
  exact (proj1 (proj2 (schemas_fix_ten_hypotheses _ _ _ Hin Hc))).
Defined.

(** The claim that no valid output exists for an input of a size other than
    10 fails for one diagnosis, in all three schemas. *)
Lemma valid_outputs_exist_for_one_diagnosis :
  length [JStr "flu"] <> 10%nat /\
  forall sc, In sc (phase_schemas [JStr "flu"]) ->
             exists out, conforms sc out = true.
Proof.
  split; [simpl; lia|].
  intros sc [<-|[<-|[<-|[]]]].
  - exists (JDict [("hypotheses",
                    JList (map (fun d => JDict [("diagnosis", d);
                                                ("position", Scenario.position 1)])
                               (repeat (JStr "flu") 10)))]).
    vm_compute. reflexivity.
  - exists (JDict [("hypotheses",
                    JList (map Scenario.predicted (repeat (JStr "flu") 10)))]).
    vm_compute. reflexivity.
  - exists (JDict [("hypotheses",
                    JList (imap Scenario.evaluated (repeat (JStr "flu") 10)))]).
    vm_compute. reflexivity.
Qed.

(** The same holds of any diagnoses but none: a diagnosis among them, ten
    times, is a valid output of each of the three schemas. *)
Lemma valid_outputs_exist_for_any_diagnosis (d : json) (diagnoses : list json) :
  In d diagnoses ->
  forall sc, In sc (phase_schemas diagnoses) ->
             exists out, conforms sc out = true /\
                         diagnosis_names out = repeat d 10.
Proof.
  intros Hd sc Hsc.
  assert (He : existsb (json_eqb d) diagnoses = true).
  { apply existsb_exists. exists d. split; [exact Hd | apply json_eqb_refl]. }
  destruct Hsc as [<-|[<-|[<-|[]]]].
  - exists (JDict [("hypotheses",
                    JList (map (fun d => JDict [("diagnosis", d);
                                                ("position", Scenario.position 1)])
                               (repeat d 10)))]).
    split; [|reflexivity]. cbn. rewrite He. reflexivity.
  - exists (JDict [("hypotheses",
                    JList (map Scenario.predicted (repeat d 10)))]).
    split; [|reflexivity]. cbn. rewrite He. reflexivity.
  - exists (JDict [("hypotheses",
                    JList (imap Scenario.evaluated (repeat d 10)))]).
    split; [|reflexivity]. cbn. rewrite He. reflexivity.
Qed.

(** A node that raises ends the run with its exception: the engine neither
    catches it nor tries the node again. *)
Lemma node_exception_aborts (log : log_file) (g : graph) (name : string)
    (f : state -> M state) (limit : nat) (s : state) (w : world)
    (trace : list step) (e : exn) :
  lookup name (nodes g) = Some f ->
  f s w = Raise e ->
  supersteps log (S limit) g [name] s w trace = Aborted trace name e.
Proof.
  intros Hf He. rewrite (supersteps_single _ _ _ _ _ _ _ _ Hf), He.
  reflexivity.
Qed.

(** C10. [call_llm] hands the schema to the backend and returns the first
    reply that decodes, as it is: the reply is not checked against the
    schema.  Only replies that do not decode are retried, 10 attempts in
    all; the [RuntimeError] is raised when all 10 fail to decode, and any
    other exception of the backend is raised again at once.  Nothing above
    [call_llm] catches an exception, so it aborts the run. *)
Theorem call_llm_returns_first_decodable_reply (env : environment)
    (messages model : json) (fmt : schema) (w : world) :
  let req := {| req_model := model; req_messages := messages;
                req_format := fmt |} in
  match call_llm env messages model fmt w with
  | Ok (j, w') =>
      exists k : nat,
        (k < 10)%nat /\
        (forall i : nat, (i < k)%nat ->
                         chat env (calls w + i)%nat req = Undecodable) /\
        chat env (calls w + k)%nat req = Content j /\
        w' = {| calls := (calls w + k + 1)%nat; draws := draws w |}
  | Raise e =>
      (e = RuntimeError 10 /\
       forall i : nat, (i < 10)%nat ->
                       chat env (calls w + i)%nat req = Undecodable) \/
      (exists k : nat,
          (k < 10)%nat /\
          (forall i : nat, (i < k)%nat ->
                           chat env (calls w + i)%nat req = Undecodable) /\
          chat env (calls w + k)%nat req = Failure e)
  end /\
  forall (log : log_file) (g : graph) (name : string) (f : state -> M state)
         (limit : nat) (s : state) (trace : list step) (e : exn),
    lookup name (nodes g) = Some f ->
    f s w = Raise e ->
    supersteps log (S limit) g [name] s w trace = Aborted trace name e.
Proof.
  intros req. split.
  - exact (attempts_spec env 10 10 req w).
  - intros log g name f limit s trace e. apply node_exception_aborts.
Qed.

(** A backend that never sends content valid for the schema, and a call
    that returns all the same. *)
Lemma call_llm_does_not_validate :
  let fmt := ranked_diagnoses [JStr "flu"] in
  (forall n req, chat Scenario.shapeless n req = Content (JDict [])) /\
  conforms fmt (JDict []) = false /\
  call_llm Scenario.shapeless (prompt "ranking" []) (JStr "gpt-oss:20b") fmt
    Scenario.start
  = Ok (JDict [], {| calls := 1; draws := 0 |}).
Proof. split; [reflexivity|]. split; reflexivity. Qed.


(** ** Downsampling in AbductionFocused *)

(** A node run that returned, by what it returned. *)
Lemma succeeded_eta (r : result (state * world)) :
  succeeded r = true -> r = Ok (update_of r, world_of r).
Proof. destruct r as [[u w]|e]; [reflexivity | discriminate]. Qed.

(** *** The two branches of [random.sample] *)

Lemma draw_ok (env : environment) (n j : nat) (w w' : world) :
  draw env n w = Ok (j, w') ->
  j = (randbelow env (draws w) n mod n)%nat /\
  w' = {| calls := calls w; draws := S (draws w) |}.
Proof. unfold draw. intros E. inversion E. auto. Qed.

(** Items at different positions, from a rearrangement. *)
Lemma positions_of_arrangement (chosen rest l : list json) :
  Permutation (chosen ++ rest) l ->
  exists js : list nat,
    NoDup js /\ Forall2 (fun j x => l !! j = Some x) js chosen.
Proof.
  intros H. apply Permutation_inj in H as (_ & f & Hinj & Hf).
  exists (f <$> seq 0 (length chosen)). split.
  - apply NoDup_fmap; [exact Hinj | apply NoDup_seq].
  - apply Forall2_fmap_l.
    assert (G : forall k (c : list json),
               (forall i x, c !! i = Some x -> l !! f (k + i)%nat = Some x) ->
               Forall2 (fun j x => l !! f j = Some x) (seq k (length c)) c).
    { intros k c. revert k. induction c as [|x c IH]; intros k Hc; simpl.
      - constructor.
      - constructor.
        + specialize (Hc 0%nat x eq_refl). now rewrite Nat.add_0_r in Hc.
        + apply IH. intros i y Hy. specialize (Hc (S i) y Hy).
          now replace (S k + i)%nat with (k + S i)%nat by lia. }
    apply G. intros i x Hx. simpl. rewrite <- Hf.
    now apply lookup_app_l_Some.
Qed.

Lemma sample_pool_positions (env : environment) (k : nat) (pool : list json)
    (chosen : list json) (w w' : world) :
  (k <= length pool)%nat ->
  sample_pool env k pool w = Ok (chosen, w') ->
  length chosen = k /\
  calls w' = calls w /\
  exists js : list nat,
    NoDup js /\ Forall2 (fun j x => pool !! j = Some x) js chosen.
Proof.
  intros Hk E.
  destruct (sample_pool_spec env k pool w Hk)
    as (chosen' & rest & w2 & Hs & Hlen & Hp & Hc).
  rewrite Hs in E. inversion E; subst.
  split; [reflexivity|]. split; [exact Hc|].
  exact (positions_of_arrangement _ _ _ Hp).
Qed.

Lemma pick_fresh_ok (env : environment) (tries n : nat) (selected : list nat) :
  forall (j : nat) (w w' : world),
    pick_fresh env tries n selected w = Ok (j, w') ->
    existsb (Nat.eqb j) selected = false /\
    (0 < n -> j < n)%nat /\
    calls w' = calls w /\ (draws w < draws w')%nat.
Proof.
  induction tries as [|tries IH]; intros j w w' E; [discriminate|].
  cbn [pick_fresh] in E.
  apply bind_ok in E as (j0 & w1 & Hd & E).
  apply draw_ok in Hd as [-> ->].
  destruct (existsb _ selected) eqn:Hsel.
  - apply IH in E as (H1 & H2 & H3 & H4). simpl in *.
    repeat split; auto; lia.
  - apply ret_ok in E as [-> ->]. simpl.
    repeat split; auto. intros Hn. apply Nat.mod_upper_bound. lia.
Qed.

Lemma sample_set_positions (env : environment) (population : list json)
    (k : nat) :
  forall (selected : list nat) (chosen : list json) (w w' : world),
    sample_set env k population selected w = Ok (chosen, w') ->
    length chosen = k /\
    calls w' = calls w /\ (draws w + k <= draws w')%nat /\
    exists js : list nat,
      NoDup js /\ Forall (fun j => j ∉ selected) js /\
      Forall2 (fun j x => population !! j = Some x) js chosen.
Proof.
  induction k as [|k IH]; intros selected chosen w w' E.
  - apply ret_ok in E as [-> ->]. simpl.
    repeat split; try lia. exists []. repeat constructor.
  - cbn [sample_set] in E.
    apply bind_ok in E as (j & w1 & Hpick & E).
    apply pick_fresh_ok in Hpick as (Hsel & _ & Hc & Hd).
    destruct (population !! j) as [x|] eqn:Hx; [|discriminate].
    apply bind_ok in E as (rest & w2 & Hrest & E).
    apply ret_ok in E as [-> ->].
    apply IH in Hrest as (Hlen & Hc' & Hd' & js & Hnd & Hfresh & Hall).
    split; [simpl; now f_equal|]. split; [congruence|]. split; [lia|].
    exists (j :: js). split; [|split].
    + constructor; [|exact Hnd].
      rewrite Forall_forall in Hfresh. intros Hin.
      apply (Hfresh j Hin). left.
    + constructor.
      * intros Hin. apply list_elem_of_In in Hin.
        assert (existsb (Nat.eqb j) selected = true); [|congruence].
        apply existsb_exists. exists j. split; [exact Hin | apply Nat.eqb_refl].
      * eapply Forall_impl; [exact Hfresh|]. intros i Hi Hin.
        apply Hi. now right.
    + constructor; assumption.
Qed.



Lemma sample_pool_world (env : environment) (k : nat) :
  forall (pool chosen : list json) (w w' : world),
    sample_pool env k pool w = Ok (chosen, w') ->
    calls w' = calls w /\ draws w' = (draws w + k)%nat.
Proof.
  induction k as [|k IH]; simpl; intros pool chosen w w' E.
  - apply ret_ok in E as [_ ->]. lia.
  - apply bind_ok in E as (j & w1 & Hd & E).
    apply draw_ok in Hd as [_ ->].
    destruct (pool !! _) as [x|]; [|discriminate].
    destruct (last pool) as [y|]; [|discriminate].
    apply bind_ok in E as (rest & w2 & Hr & E).
    apply ret_ok in E as [_ ->].
    apply IH in Hr as [H1 H2]. simpl in *. lia.
Qed.

(** What [random.sample] returns: as many items as asked for, from
    different positions of the population, for at least as many draws, and
    for exactly as many when the population is small enough for the
    pool. *)
Lemma random_sample_ok (env : environment) (population k : json)
    (chosen : list json) (w w' : world) :
  random_sample env population k w = Ok (chosen, w') ->
  exists (items : list json) (z : Z),
    py_iter population = Ok items /\
    as_int k = Some z /\ 0 <= z <= Z.of_nat (length items) /\
    length chosen = Z.to_nat z /\
    calls w' = calls w /\
    (draws w + Z.to_nat z <= draws w')%nat /\
    ((length items <= setsize (Z.to_nat z))%nat ->
     draws w' = (draws w + Z.to_nat z)%nat) /\
    exists js : list nat,
      NoDup js /\ Forall2 (fun j x => items !! j = Some x) js chosen.
Proof.
  unfold random_sample. intros E.
  assert (G : forall items,
             py_iter population = Ok items ->
             match as_int k with
             | Some z =>
                 if (0 <=? z) && (z <=? Z.of_nat (length items))
                 then if (length items <=? setsize (Z.to_nat z))%nat
                      then sample_pool env (Z.to_nat z) items
                      else sample_set env (Z.to_nat z) items []
                 else raise ValueError
             | None => raise TypeError
             end w = Ok (chosen, w') ->
             exists (items : list json) (z : Z),
               py_iter population = Ok items /\
               as_int k = Some z /\ 0 <= z <= Z.of_nat (length items) /\
               length chosen = Z.to_nat z /\
               calls w' = calls w /\
               (draws w + Z.to_nat z <= draws w')%nat /\
               ((length items <= setsize (Z.to_nat z))%nat ->
                draws w' = (draws w + Z.to_nat z)%nat) /\
               exists js : list nat,
                 NoDup js /\ Forall2 (fun j x => items !! j = Some x) js chosen).
  { intros items Hit G. exists items.
    destruct (as_int k) as [z|]; [|discriminate]. exists z.
    destruct ((0 <=? z) && (z <=? Z.of_nat (length items))) eqn:Hb;
      [|discriminate].
    apply andb_prop in Hb as [H0 H1]. apply Z.leb_le in H0, H1.
    split; [exact Hit|]. split; [reflexivity|]. split; [lia|].
    destruct (Nat.leb_spec (length items) (setsize (Z.to_nat z))) as [Hs|Hs].
    - pose proof G as G'.
      apply sample_pool_positions in G as (Hlen & Hc & js & Hjs); [|lia].
      apply sample_pool_world in G' as [_ Hd].
      split; [exact Hlen|]. split; [exact Hc|]. split; [lia|].
      split; [intros _; exact Hd|]. exists js. exact Hjs.
    - apply sample_set_positions in G
        as (Hlen & Hc & Hd & js & Hnd & _ & Hall).
      split; [exact Hlen|]. split; [exact Hc|]. split; [exact Hd|].
      split; [intros Hle; lia|]. exists js. split; assumption. }
  destruct population; try discriminate;
    apply bind_ok in E as (items & w1 & Hi & E);
    apply lift_ok in Hi as [Hi ->]; exact (G _ Hi E).
Qed.


(** *** One sequence of draws for each sample *)



(** *** The node *)



Lemma chars_length (s : string) : length (chars s) = String.length s.
Proof. induction s as [|c s IH]; simpl; [reflexivity | now f_equal]. Qed.

Lemma py_len_iter (x : json) (n : Z) (items : list json) :
  py_len x = Ok n -> py_iter x = Ok items -> n = Z.of_nat (length items).
Proof.
  destruct x; simpl; try discriminate; intros H1 H2;
    inversion H1; inversion H2; subst.
  - now rewrite chars_length.
  - reflexivity.
  - now rewrite length_map.
Qed.



(** ** Ranking *)

Lemma obedient_honours_format (base : environment) :
  honours_format (obedient base).
Proof.
  intros n req j. simpl. destruct (chat base n req) as [j'| |e]; try discriminate.
  destruct (conforms (req_format req) j') eqn:Hc; [|discriminate].
  intros H. inversion H; subst. exact Hc.
Qed.

Lemma item_delete (s : state) (k k' : string) :
  k <> k' -> item (delete k s) k' = item s k'.
Proof. intros H. unfold item. now rewrite lookup_delete_ne. Qed.

Lemma get_delete (s : state) (k k' : string) (dflt : json) :
  k <> k' -> get (delete k s) k' dflt = get s k' dflt.
Proof. intros H. unfold get. now rewrite lookup_delete_ne. Qed.

(** C4. Entered with [reranked] already true, the Ranking node does not
    fail on that account: it does what it does on a first pass, in a state
    without an induction result.  It ranks the focused hypotheses once more
    and, when the ranking succeeds, writes it as the new [ranking] together
    with [reranked = False]. *)
Theorem ranking_after_rerank_is_a_first_pass (env : environment) (s : state)
    (w : world) :
  truthy (get s "reranked" (JBool false)) = true ->
  n_ranking env s w = n_ranking env (delete "induction" s) w /\
  forall u w', n_ranking env s w = Ok (u, w') ->
               exists out, u = {[ "ranking" := out; "reranked" := JBool false ]}.
Proof.
  intros Ht.
  assert (R : rerank_due s = false).
  { unfold rerank_due. rewrite Ht. apply andb_false_r. }
  assert (R' : rerank_due (delete "induction" s) = false).
  { unfold rerank_due, get at 1. now rewrite lookup_delete_eq. }
  split.
  - unfold n_ranking. rewrite R, R'.
    rewrite !item_delete, !get_delete by done. reflexivity.
  - intros u w' E. apply n_ranking_ok in E as [out ->].
    rewrite R. eauto.
Qed.

(** The final state of the scripted run has [reranked] true; the node run
    on it returns a ranking and resets the flag. *)
Lemma ranking_after_rerank_is_a_first_pass_witness :
  truthy (get Scenario.final "reranked" (JBool false)) = true /\
  n_ranking Scenario.backend Scenario.final Scenario.world_final
  = n_ranking Scenario.backend (delete "induction" Scenario.final)
      Scenario.world_final.
Proof.
  assert (Ht : truthy (get Scenario.final "reranked" (JBool false)) = true)
    by (vm_compute; reflexivity).
  split; [exact Ht|].
  exact (proj1 (ranking_after_rerank_is_a_first_pass Scenario.backend
                  Scenario.final Scenario.world_final Ht)).
Defined.

Lemma ranking_entered_after_rerank_succeeds :
  truthy (get Scenario.final "reranked" (JBool false)) = true /\
  exists u w',
    n_ranking Scenario.backend Scenario.final Scenario.world_final
    = Ok (u, w') /\
    u !! "reranked" = Some (JBool false) /\
    (exists out, u !! "ranking" = Some out /\
                 json_eqb out (get Scenario.final "ranking" JNull) = false).
Proof.
  split; [vm_compute; reflexivity|].
  eexists _, _. split; [vm_compute; reflexivity|].
  split; [vm_compute; reflexivity|].
  eexists. split; vm_compute; reflexivity.
Qed.

(** Ranking and the sort that follows it in the node: the result holds the
    hypotheses of the backend's answer, rearranged in ascending order of
    rank. *)
Lemma rank_and_sort_ok (env : environment) (case abd model it : json)
    (w w1 : world) (out out' : json) :
  query_rank_hypotheses env case abd model it w = Ok (out, w1) ->
  sort_hypotheses out = Ok out' ->
  exists (req : request) (answer hs : json) (n : nat)
         (returned ranked : list json),
    ranking_request case abd model = Ok req /\
    chat env n req = Content answer /\
    getitem answer "hypotheses" = Ok hs /\
    py_iter hs = Ok returned /\
    Permutation returned ranked /\
    sorted_by_rank ranked /\
    out' = JDict [("hypotheses", JList ranked)].
Proof.
  unfold query_rank_hypotheses. intros E Hs.
  apply bind_ok in E as (req & w0 & Hreq & E). apply lift_ok in Hreq as [Hreq ->].
  apply bind_ok in E as (answer & w2 & Hcall & E).
  apply bind_ok in E as (r1 & w3 & Hsort & E).
  apply lift_ok in Hsort as [Hsort ->]. apply ret_ok in E as [-> ->].
  apply call_llm_ok in Hcall as [[n Hn] _].
  apply rbind_ok in Hsort as (hs & Hhs & Hsort).
  apply rbind_ok in Hsort as (returned & Hit & Hsort).
  apply sort_by_rank_ok in Hsort as [Hp1 _].
  unfold sort_hypotheses in Hs. simpl in Hs.
  apply rbind_ok in Hs as (ranked & Hs2 & Hs).
  inversion Hs; subst; clear Hs.
  apply sort_by_rank_ok in Hs2 as [Hp2 Hsorted].
  exists req, answer, hs, n, returned, ranked.
  destruct req as [m ms f]. simpl in Hn.
  repeat (split; [eassumption || reflexivity|]).
  split; [now transitivity r1|]. split; [exact Hsorted | reflexivity].
Qed.

(** C5. After a Ranking step for which the backend kept to the schema of
    the request, the hypotheses of [ranking] are those of the backend's
    answer, every one of them once, in ascending order of rank.  The ranks
    are whatever integers the backend gave. *)
Theorem ranking_is_sorted (env : environment) (s u : state) (w w' : world) :
  honours_format env ->
  n_ranking env s w = Ok (u, w') ->
  exists (req : request) (answer hs : json) (n : nat)
         (returned ranked : list json),
    chat env n req = Content answer /\
    conforms (req_format req) answer = true /\
    getitem answer "hypotheses" = Ok hs /\
    py_iter hs = Ok returned /\
    u !! "ranking" = Some (JDict [("hypotheses", JList ranked)]) /\
    Permutation returned ranked /\
    sorted_by_rank ranked.
Proof.
  unfold n_ranking. intros Hf E.
  destruct (rerank_due s); run_inv E;
    match goal with
    | Hq : query_rank_hypotheses _ _ _ _ _ _ = Ok _,
      Hs : sort_hypotheses _ = Ok _ |- _ =>
        destruct (rank_and_sort_ok _ _ _ _ _ _ _ _ _ Hq Hs)
          as (req & answer & hs & n & returned & ranked
              & _ & Hn & Hhs & Hit & Hp & Hsorted & ->)
    end;
    exists req, answer, hs, n, returned, ranked;
    (split; [assumption|]); (split; [exact (Hf n req answer Hn)|]);
    (repeat (split; [assumption|]));
    (split; [by simplify_map_eq|]); split; assumption.
Qed.

(** The first ranking of the scripted run, the backend held to the
    schema. *)
Lemma ranking_is_sorted_witness :
  let env := obedient Scenario.backend in
  let s := Scenario.state_after 2 in
  let r := n_ranking env s {| calls := 3; draws := 10 |} in
  honours_format env /\
  succeeded r = true /\
  exists (req : request) (answer hs : json) (n : nat)
         (returned ranked : list json),
    chat env n req = Content answer /\
    conforms (req_format req) answer = true /\
    getitem answer "hypotheses" = Ok hs /\
    py_iter hs = Ok returned /\
    update_of r !! "ranking" = Some (JDict [("hypotheses", JList ranked)]) /\
    Permutation returned ranked /\
    sorted_by_rank ranked.
Proof.
  intros env s r.
  assert (H : succeeded r = true) by (vm_compute; reflexivity).
  split; [apply obedient_honours_format|]. split; [exact H|].
  exact (ranking_is_sorted env s (update_of r) {| calls := 3; draws := 10 |}
           (world_of r) (obedient_honours_format Scenario.backend)
           (succeeded_eta r H)).
Defined.

(** A backend that keeps to the schema and gives every hypothesis rank 1:
    the ranks of the ranking are ten times 1, not the numbers 1 to 10. *)
Lemma ranks_need_not_be_one_to_n :
  let env := obedient Scenario.tied in
  let s := Scenario.state_after 2 in
  let r := n_ranking env s {| calls := 3; draws := 10 |} in
  let out := get (update_of r) "ranking" JNull in
  honours_format env /\
  succeeded r = true /\
  length (hypotheses_of out) = 10%nat /\
  ranks out = repeat (Some 1) 10 /\
  ~ Permutation (ranks out) (map (fun i => Some (Z.of_nat i)) (seq 1 10)).
Proof.
  intros env s r out.
  assert (Hr : ranks out = repeat (Some 1) 10) by (vm_compute; reflexivity).
  split; [apply obedient_honours_format|].
  split; [vm_compute; reflexivity|].
  split; [vm_compute; reflexivity|].
  split; [exact Hr|].
  rewrite Hr. intros Hp. symmetry in Hp.
  apply (Permutation_in (Some 2)) in Hp; [|vm_compute; tauto].
  vm_compute in Hp. intuition discriminate.
Qed.

(** ** The second ranking pass *)

Lemma py_any_false (f : json -> result bool) (l : list json) :
  py_any f l = Ok false -> Forall (fun h => f h = Ok false) l.
Proof.
  induction l as [|h l IH]; simpl; intros E; [constructor|].
  apply rbind_ok in E as (b & Hb & E). destruct b; [discriminate|].
  constructor; auto.
Qed.

Lemma focused_line_evaluation (h line v : json) :
  focused_line true h = Ok line ->
  getitem h "evaluation" = Ok v ->
  getitem line "evaluation" = Ok v.
Proof.
  unfold focused_line. intros E Hv.
  apply rbind_ok in E as (diag & _ & E).
  apply rbind_ok in E as (evaluation & He & E).
  apply rbind_ok in E as (term & _ & E).
  apply rbind_ok in E as (expl & _ & E).
  apply rbind_ok in E as (findings & _ & E).
  apply rbind_ok in E as ([[conf contr] miss] & _ & E).
  inversion E; subst; clear E. simpl.
  destruct h as [| | | | |d]; try discriminate. simpl in He, Hv.
  destruct (assoc "evaluation" d); congruence.
Qed.

(** What [ranking_request] puts into the request: one prompt line and one
    member of the diagnosis enumeration for every hypothesis it is given,
    and in the line the evaluation of a hypothesis that carries one. *)
Lemma ranking_request_ok (case abd model : json) (req : request) :
  ranking_request case abd model = Ok req ->
  exists (hyps ctx : json) (items lines diagnoses : list json),
    dict_get abd "hypotheses" (JList []) = Ok hyps /\
    py_iter hyps = Ok items /\
    req = {| req_model := model;
             req_messages :=
               prompt "ranking" [("ranking_context", ctx); ("case", case);
                                 ("hypotheses", JList lines)];
             req_format := ranked_diagnoses diagnoses |} /\
    Forall2 (fun h d => dict_get h "diagnosis" (JStr "") = Ok d)
            items diagnoses /\
    Forall2 (fun h line => forall v, getitem h "evaluation" = Ok v ->
                                     getitem line "evaluation" = Ok v)
            items lines.
Proof.
  unfold ranking_request. intros E.
  apply rbind_ok in E as (hyps & Hh & E).
  apply rbind_ok in E as (items & Hit & E).
  apply rbind_ok in E as (is_post & Hany & E).
  apply rbind_ok in E as (lines & Hlines & E).
  apply rbind_ok in E as (diagnoses & Hd & E).
  inversion E; subst; clear E.
  eexists hyps, _, items, lines, diagnoses.
  split; [exact Hh|]. split; [exact Hit|]. split; [reflexivity|].
  split; [exact (rmap_Forall2 _ _ _ Hd)|].
  apply rmap_Forall2 in Hlines.
  destruct is_post.
  - eapply Forall2_impl; [exact Hlines|].
    intros h line Hl v Hv. exact (focused_line_evaluation h line v Hl Hv).
  - apply py_any_false in Hany. rewrite List.Forall_forall in Hany.
    assert (Hin : forall h, In h items ->
                  forall v, getitem h "evaluation" = Ok v -> False).
    { intros h Hh' v Hv. specialize (Hany h Hh').
      destruct h as [| | | | |d]; try discriminate. simpl in Hv, Hany.
      destruct (assoc "evaluation" d); discriminate. }
    clear Hany Hit Hd. induction Hlines as [|h line items lines _ _ IH];
      constructor.
    + intros v Hv. exfalso. eapply Hin; [left; reflexivity | exact Hv].
    + apply IH. intros h' Hh'. apply Hin. right. exact Hh'.
Qed.

(** C3. On the second pass the Ranking node sends to the backend every
    hypothesis of [induction], plausible or refuted: each one is a line of
    the prompt and a member of the diagnosis enumeration of the schema, and
    the line of a hypothesis reports the evaluation it carries.  The node
    then writes the ranking and [reranked = True]. *)
Theorem second_pass_ranks_every_induction_hypothesis (env : environment)
    (s u : state) (w w' : world) :
  rerank_due s = true ->
  n_ranking env s w = Ok (u, w') ->
  exists (induction hyps ctx case answer out : json)
         (items lines diagnoses : list json) (n : nat),
    s !! "induction" = Some induction /\
    getitem induction "hypotheses" = Ok hyps /\
    py_iter hyps = Ok items /\
    Forall2 (fun h d => dict_get h "diagnosis" (JStr "") = Ok d)
            items diagnoses /\
    Forall2 (fun h line => forall v, getitem h "evaluation" = Ok v ->
                                     getitem line "evaluation" = Ok v)
            items lines /\
    chat env n
      {| req_model := get s "model" JNull;
         req_messages :=
           prompt "ranking" [("ranking_context", ctx); ("case", case);
                             ("hypotheses", JList lines)];
         req_format := ranked_diagnoses diagnoses |} = Content answer /\
    u = {[ "ranking" := out; "reranked" := JBool true ]}.
Proof.
  intros R. unfold n_ranking. rewrite R. intros E.
  apply bind_ok in E as (induction & w0 & Hi & E).
  apply lift_ok in Hi as [Hi ->].
  apply bind_ok in E as (hyps0 & w0 & Hh0 & E).
  apply lift_ok in Hh0 as [Hh0 ->].
  apply bind_ok in E as (case & w0 & Hc & E).
  apply lift_ok in Hc as [Hc ->].
  apply bind_ok in E as (model & w0 & Hm & E).
  apply lift_ok in Hm as [Hm ->].
  apply bind_ok in E as (out0 & w1 & Hq & E).
  apply bind_ok in E as (out & w2 & Hs & E).
  apply lift_ok in Hs as [Hs ->]. apply ret_ok in E as [-> ->].
  destruct (rank_and_sort_ok _ _ _ _ _ _ _ _ _ Hq Hs)
    as (req & answer & hs & n & returned & ranked
        & Hreq & Hn & _ & _ & _ & _ & ->).
  apply ranking_request_ok in Hreq
    as (hyps & ctx & items & lines & diagnoses & Hh & Hit & -> & Hd & Hl).
  simpl in Hh. inversion Hh; subst; clear Hh.
  unfold item in Hi, Hm.
  destruct (s !! "induction") as [ind|] eqn:Hind; [|discriminate].
  destruct (s !! "model") as [mdl|] eqn:Hmdl; [|discriminate].
  inversion Hi; inversion Hm; subst.
  exists induction, hyps, ctx, case, answer,
    (JDict [("hypotheses", JList ranked)]), items, lines, diagnoses, n.
  unfold get. rewrite Hmdl. simpl.
  split; [reflexivity|]. split; [exact Hh0|]. split; [exact Hit|].
  split; [exact Hd|]. split; [exact Hl|]. split; [exact Hn | reflexivity].
Qed.

(** The second ranking of the scripted run: ten hypotheses are sent. *)
Lemma second_pass_ranks_every_induction_hypothesis_witness :
  rerank_due Scenario.before_rerank = true /\
  exists (u : state) (w' : world),
    n_ranking Scenario.backend Scenario.before_rerank
      Scenario.world_before_rerank = Ok (u, w') /\
    exists (induction hyps ctx case answer out : json)
           (items lines diagnoses : list json) (n : nat),
      Scenario.before_rerank !! "induction" = Some induction /\
      getitem induction "hypotheses" = Ok hyps /\
      py_iter hyps = Ok items /\
      Forall2 (fun h d => dict_get h "diagnosis" (JStr "") = Ok d)
              items diagnoses /\
      Forall2 (fun h line => forall v, getitem h "evaluation" = Ok v ->
                                       getitem line "evaluation" = Ok v)
              items lines /\
      chat Scenario.backend n
        {| req_model := get Scenario.before_rerank "model" JNull;
           req_messages :=
             prompt "ranking" [("ranking_context", ctx); ("case", case);
                               ("hypotheses", JList lines)];
           req_format := ranked_diagnoses diagnoses |} = Content answer /\
      u = {[ "ranking" := out; "reranked" := JBool true ]}.
Proof.
  assert (R : rerank_due Scenario.before_rerank = true)
    by (vm_compute; reflexivity).
  split; [exact R|].
  eexists _, _. split; [vm_compute; reflexivity|].
  apply (second_pass_ranks_every_induction_hypothesis Scenario.backend
           Scenario.before_rerank _ Scenario.world_before_rerank
           Scenario.world_final R).
  vm_compute. reflexivity.
Defined.

(** In the scripted run five of the ten induction hypotheses are plausible.
    The node ranks ten; ranking the plausible ones only, as the
    specification words the second pass, would rank five. *)
Lemma second_pass_is_not_as_specified :
  rerank_due Scenario.before_rerank = true /\
  length (hypotheses_of
            (get Scenario.before_rerank "induction_plausible" JNull))
  = 5%nat /\
  ranked_count (n_ranking Scenario.backend Scenario.before_rerank
                  Scenario.world_before_rerank) = Some 10%nat /\
  ranked_count (second_pass_as_specified Scenario.backend
                  Scenario.before_rerank Scenario.world_before_rerank)
  = Some 5%nat /\
  n_ranking Scenario.backend Scenario.before_rerank
    Scenario.world_before_rerank
  <> second_pass_as_specified Scenario.backend Scenario.before_rerank
       Scenario.world_before_rerank.
Proof.
  assert (H10 : ranked_count (n_ranking Scenario.backend
                                Scenario.before_rerank
                                Scenario.world_before_rerank) = Some 10%nat)
    by (vm_compute; reflexivity).
  assert (H5 : ranked_count (second_pass_as_specified Scenario.backend
                               Scenario.before_rerank
                               Scenario.world_before_rerank) = Some 5%nat)
    by (vm_compute; reflexivity).
  split; [vm_compute; reflexivity|].
  split; [vm_compute; reflexivity|].
  split; [exact H10|]. split; [exact H5|].
  intros E. rewrite E in H10. rewrite H5 in H10. discriminate H10.
Qed.

(** ** Diagnoses through Deduction and Induction *)

Lemma sort_keyed_perm (l : list (json * json)) (l' : list json) :
  sort_keyed l = Ok l' -> Permutation (map snd l) l'.
Proof.
  unfold sort_keyed. destruct (rmap _ l) as [zl|e] eqn:E.
  - intros H. inversion H; subst; clear H.
    apply keys_as_int in E as [Hsnd _]. rewrite <- Hsnd.
    apply Permutation_map. symmetry. apply stable_sort_perm.
  - destruct l as [|kv [|kv' l]].
    + intros H. inversion H. constructor.
    + intros H. inversion H. reflexivity.
    + destruct (_ || _); discriminate.
Qed.

Lemma rmap_snd {A B} (f : A -> result (B * A)) (l : list A)
    (l' : list (B * A)) :
  (forall x y, f x = Ok y -> snd y = x) ->
  rmap f l = Ok l' -> map snd l' = l.
Proof.
  intros Hf E. apply rmap_Forall2 in E.
  induction E as [|x y l l' H _ IH]; simpl; [reflexivity|].
  f_equal; [exact (Hf x y H) | exact IH].
Qed.

Lemma sort_by_rank_or_last_perm (l l' : list json) :
  sort_by_rank_or_last l = Ok l' -> Permutation l l'.
Proof.
  unfold sort_by_rank_or_last. intros E.
  apply rbind_ok in E as (keyed & Hk & E).
  apply sort_keyed_perm in E.
  apply rmap_snd in Hk; [now rewrite Hk in E|].
  intros x y H. apply rbind_ok in H as (p & _ & H).
  apply rbind_ok in H as (r & _ & H). inversion H. reflexivity.
Qed.

(** The members of a diagnosis enumeration built from the hypotheses of a
    phase output are diagnoses that output names. *)
Lemma enumerated_diagnoses_are_named (r hyps0 d : json)
    (items sorted diagnoses : list json) :
  dict_get r "hypotheses" (JList []) = Ok hyps0 ->
  py_iter hyps0 = Ok items ->
  Permutation items sorted ->
  rmap (fun x => getitem x "diagnosis") sorted = Ok diagnoses ->
  In d diagnoses ->
  In d (diagnosis_names r).
Proof.
  intros Hr Hit Hp Hd Hin.
  apply rmap_Forall2 in Hd.
  assert (exists x, In x sorted /\ getitem x "diagnosis" = Ok d) as (x & Hx & Hxd).
  { clear Hp. induction Hd as [|x y l l' H _ IH]; [destruct Hin|].
    destruct Hin as [->|Hin].
    - exists x. split; [now left | exact H].
    - destruct (IH Hin) as (x' & Hx' & Hd'). exists x'. split; [now right|].
      exact Hd'. }
  apply (Permutation_in _ (Permutation_sym Hp)) in Hx.
  assert (Hl : hypotheses_of r = items).
  { destruct r as [| | | | |dd]; try discriminate.
    unfold hypotheses_of. simpl in Hr |- *.
    destruct (assoc "hypotheses" dd) as [v|]; inversion Hr; subst.
    - destruct hyps0 as [| | |t|l|d']; simpl in Hit; inversion Hit; subst;
        try reflexivity; exfalso.
      + clear -Hx Hxd. induction t as [|c t IH]; simpl in Hx; [destruct Hx|].
        destruct Hx as [<-|Hx]; [discriminate | auto].
      + clear -Hx Hxd. induction d' as [|kv d' IH]; simpl in Hx; [destruct Hx|].
        destruct Hx as [<-|Hx]; [discriminate | auto].
    - simpl in Hit. inversion Hit. reflexivity. }
  unfold diagnosis_names. rewrite Hl.
  apply list_elem_of_In. apply list_elem_of_omap.
  exists x. split; [now apply list_elem_of_In|].
  unfold diagnosis_of. now rewrite Hxd.
Qed.

(** One pure binding of a successful computation. *)
Ltac pure_step E x H :=
  let w1 := fresh "w" in
  let Hw := fresh "Hw" in
  apply bind_ok in E as (x & w1 & H & E);
  apply lift_ok in H as [H Hw]; subst w1.

Lemma plausible_only_sub (hs kept : list json) :
  plausible_only hs = Ok kept -> Forall (fun h => In h hs) kept.
Proof.
  unfold plausible_only.
  assert (G : forall (l acc res : list json),
             foldl (fun acc diagnosis =>
                      let? kept := acc in
                      let? evaluation := getitem diagnosis "evaluation" in
                      if eq_str evaluation "plausible"
                      then Ok ((kept ++ [diagnosis])%list)
                      else Ok kept) (Ok acc) l = Ok res ->
             Forall (fun h => In h acc \/ In h l) res).
  { induction l as [|x l IH]; simpl; intros acc res E.
    - inversion E; subst. apply List.Forall_forall. auto.
    - destruct (getitem x "evaluation") as [ev|e]; simpl in E.
      + destruct (eq_str ev "plausible").
        * apply IH in E. eapply Forall_impl; [exact E|].
          intros h [Hh|Hh]; [|auto].
          apply in_app_or in Hh as [Hh|[<-|[]]]; auto.
        * apply IH in E. eapply Forall_impl; [exact E|].
          intros h [Hh|Hh]; auto.
      + exfalso. clear -E. induction l as [|y l IH]; simpl in E;
          [discriminate | auto]. }
  intros E. apply G in E. eapply Forall_impl; [exact E|].
  intros h [[]|Hh]. exact Hh.
Qed.

(** The deduction names ranked diagnoses only, when the backend keeps to
    the schema. *)
Lemma query_deduction_names (env : environment) (r model it out : json)
    (w w' : world) :
  honours_format env ->
  query_deduction env r model it w = Ok (out, w') ->
  length (hypotheses_of out) = 10%nat /\
  Forall (fun h => exists d, diagnosis_of h = Some d /\
                             In d (diagnosis_names r))
         (hypotheses_of out).
Proof.
  intros Hf E. unfold query_deduction in E.
  pure_step E hyps0 H0.
  pure_step E items H1.
  pure_step E sorted H2.
  pure_step E lines Hlines.
  pure_step E diagnoses H3.
  apply call_llm_ok in E as [[n Hn] _]. apply Hf in Hn. cbn [req_format] in Hn.
  destruct (phase_schema_valid diagnoses _ out
              ltac:(right; left; reflexivity) Hn) as [Hlen Hall].
  split; [exact Hlen|].
  eapply Forall_impl; [exact Hall|]. intros h (d & Hd & Hin).
  exists d. split; [exact Hd|].
  exact (enumerated_diagnoses_are_named r hyps0 d items sorted diagnoses
           H0 H1 (sort_by_rank_or_last_perm _ _ H2) H3 Hin).
Qed.

Lemma query_induction_names (env : environment) (case ded model it : json)
    (out_all out_plausible : json) (w w' : world) :
  honours_format env ->
  query_induction env case ded model it w
  = Ok ((out_all, out_plausible), w') ->
  length (hypotheses_of out_all) = 10%nat /\
  Forall (fun h => exists d, diagnosis_of h = Some d /\
                             In d (diagnosis_names ded))
         (hypotheses_of out_all) /\
  Forall (fun h => In h (hypotheses_of out_all))
         (hypotheses_of out_plausible).
Proof.
  intros Hf E. unfold query_induction in E.
  pure_step E hyps0 H0.
  pure_step E items H1.
  pure_step E blk Hblk.
  pure_step E diagnoses H3.
  apply bind_ok in E as (answer & w1 & Hcall & E).
  pure_step E filtered Hfil. apply ret_ok in E as [E ->].
  inversion E; subst; clear E.
  apply call_llm_ok in Hcall as [[n Hn] _]. apply Hf in Hn. cbn [req_format] in Hn.
  destruct (phase_schema_valid diagnoses _ answer
              ltac:(right; right; left; reflexivity) Hn) as [Hlen Hall].
  split; [exact Hlen|]. split.
  - eapply Forall_impl; [exact Hall|]. intros h (d & Hd & Hin).
    exists d. split; [exact Hd|].
    exact (enumerated_diagnoses_are_named ded hyps0 d items items diagnoses
             H0 H1 (Permutation_refl _) H3 Hin).
  - apply rbind_ok in Hfil as (hh & Hhh & Hfil).
    apply rbind_ok in Hfil as (hs & Hhs & Hfil).
    apply plausible_only_sub in Hfil.
    unfold hypotheses_of at 2. simpl.
    unfold hypotheses_of in Hlen |- *. rewrite Hhh in Hlen |- *.
    destruct hh as [| | | |l|]; simpl in Hlen; try discriminate.
    simpl in Hhs. inversion Hhs; subst. exact Hfil.
Qed.

Lemma names_chain (A B : json) (X : list json) :
  Forall (fun h => exists d, diagnosis_of h = Some d /\
                             In d (diagnosis_names B)) X ->
  Forall (fun h => exists d, diagnosis_of h = Some d /\
                             In d (diagnosis_names A)) (hypotheses_of B) ->
  Forall (fun h => exists d, diagnosis_of h = Some d /\
                             In d (diagnosis_names A)) X.
Proof.
  intros HX HB. eapply Forall_impl; [exact HX|].
  intros h (d & Hd & Hin). exists d. split; [exact Hd|].
  unfold diagnosis_names in Hin.
  apply list_elem_of_In, list_elem_of_omap in Hin as (h' & Hh' & Hd').
  rewrite List.Forall_forall in HB.
  destruct (HB h' (proj1 (list_elem_of_In _ _) Hh')) as (d' & Hd'' & Hin').
  congruence.
Qed.

(** C7. When the backend keeps to the schema it is sent, a Deduction step
    and the Induction step after it name ranked diagnoses only: each of the
    10 hypotheses of [deduction], each of the 10 of [induction] and each of
    [induction_plausible] carries a diagnosis that a hypothesis of the
    [ranking] read by Deduction carries. *)
Theorem deduction_and_induction_name_ranked_diagnoses (env : environment)
    (s u1 u2 : state) (w w1 w2 : world) :
  honours_format env ->
  n_deduction env s w = Ok (u1, w1) ->
  n_induction env (u1 ∪ s) w1 = Ok (u2, w2) ->
  let named := fun h => exists d, diagnosis_of h = Some d /\
                                  In d (diagnosis_names (get s "ranking" JNull)) in
  length (hypotheses_of (get u1 "deduction" JNull)) = 10%nat /\
  length (hypotheses_of (get u2 "induction" JNull)) = 10%nat /\
  Forall named (hypotheses_of (get u1 "deduction" JNull)) /\
  Forall named (hypotheses_of (get u2 "induction" JNull)) /\
  Forall named (hypotheses_of (get u2 "induction_plausible" JNull)).
Proof.
  intros Hf E1 E2 named.
  unfold n_deduction in E1.
  pure_step E1 ranking Hr. pure_step E1 model Hm.
  apply bind_ok in E1 as (out & wa & Hq & E1). apply ret_ok in E1 as [-> ->].
  destruct (query_deduction_names _ _ _ _ _ _ _ Hf Hq) as [Hlen Hall].
  assert (Hrank : get s "ranking" JNull = ranking).
  { unfold item in Hr. unfold get. destruct (s !! "ranking"); inversion Hr.
    reflexivity. }
  assert (Hded : get {[ "deduction" := out ]} "deduction" JNull = out).
  { unfold get. now rewrite lookup_singleton_eq. }
  unfold n_induction in E2.
  pure_step E2 case Hc. pure_step E2 model' Hm'. pure_step E2 ded Hd.
  apply bind_ok in E2 as ([out_all out_pl] & wb & Hqi & E2).
  pure_step E2 iter_next Hit. apply ret_ok in E2 as [-> ->].
  assert (ded = out) as ->.
  { unfold item in Hd.
    rewrite (lookup_union_Some_l _ s "deduction" out) in Hd
      by apply lookup_singleton_eq.
    now inversion Hd. }
  destruct (query_induction_names _ _ _ _ _ _ _ _ _ Hf Hqi)
    as (Hlen2 & Hall2 & Hsub).
  assert (Hall_r : Forall named (hypotheses_of out)).
  { unfold named. rewrite Hrank. exact Hall. }
  assert (Hind : get {[ "induction" := out_all;
                        "induction_plausible" := out_pl;
                        "iter" := iter_next ]} "induction" JNull = out_all).
  { unfold get. by simplify_map_eq. }
  assert (Hpl : get {[ "induction" := out_all;
                       "induction_plausible" := out_pl;
                       "iter" := iter_next ]} "induction_plausible" JNull
                = out_pl).
  { unfold get. by simplify_map_eq. }
  rewrite Hded, Hind, Hpl.
  assert (Hall2_r : Forall named (hypotheses_of out_all)).
  { exact (names_chain _ out _ Hall2 Hall_r). }
  split; [exact Hlen|]. split; [exact Hlen2|]. split; [exact Hall_r|].
  split; [exact Hall2_r|].
  rewrite List.Forall_forall in Hsub, Hall2_r |- *.
  intros h Hh. apply Hall2_r, Hsub, Hh.
Qed.

(** The Deduction and Induction steps of the scripted run, with a backend
    held to the schema. *)
Lemma deduction_and_induction_name_ranked_diagnoses_witness :
  let env := obedient Scenario.backend in
  let s := Scenario.state_after 3 in
  let r1 := n_deduction env s {| calls := 4; draws := 10 |} in
  let r2 := n_induction env (update_of r1 ∪ s) (world_of r1) in
  honours_format env /\
  succeeded r1 = true /\
  succeeded r2 = true /\
  length (hypotheses_of (get (update_of r1) "deduction" JNull)) = 10%nat /\
  Forall (fun h => exists d, diagnosis_of h = Some d /\
                    In d (diagnosis_names (get s "ranking" JNull)))
         (hypotheses_of (get (update_of r2) "induction" JNull)).
Proof.
  intros env s r1 r2.
  assert (H1 : succeeded r1 = true) by (vm_compute; reflexivity).
  assert (H2 : succeeded r2 = true) by (vm_compute; reflexivity).
  destruct (deduction_and_induction_name_ranked_diagnoses env s
              (update_of r1) (update_of r2) {| calls := 4; draws := 10 |}
              (world_of r1) (world_of r2)
              (obedient_honours_format Scenario.backend)
              (succeeded_eta r1 H1) (succeeded_eta r2 H2))
    as (Ha & _ & _ & Hb & _).
  split; [apply obedient_honours_format|].
  split; [exact H1|]. split; [exact H2|]. split; [exact Ha | exact Hb].
Defined.

(** A backend that answers the deduction with a diagnosis of its own: the
    node returns it. *)
Lemma deduction_can_name_an_unranked_diagnosis :
  let r := n_deduction Scenario.inventing (Scenario.state_after 3)
             {| calls := 4; draws := 10 |} in
  succeeded r = true /\
  existsb (json_eqb (JStr "gout"))
    (diagnosis_names (get (update_of r) "deduction" JNull)) = true /\
  existsb (json_eqb (JStr "gout"))
    (diagnosis_names (get (Scenario.state_after 3) "ranking" JNull)) = false.
Proof. intros r. repeat split; vm_compute; reflexivity. Qed.


(** ** The inputs of a run *)

Lemma nodes_keep_inputs (env : environment) (name : string)
    (f : state -> M state) (s u : state) (w w' : world) :
  lookup name (nodes (graph_definition env)) = Some f ->
  f s w = Ok (u, w') -> keeps_inputs s u.
Proof.
  intros Hl E. cbn in Hl.
  repeat match type of Hl with
         | (if ?b then _ else _) = _ => destruct b
         end; inversion Hl; subst; clear Hl.
  - apply n_abstraction_ok in E as [l ->]. repeat split; auto.
  - apply n_abduction_unfocused_ok in E as (out & top_k & Hk & ->).
    split; [reflexivity|]. split; [reflexivity|]. right.
    rewrite Hk. reflexivity.
  - apply n_abduction_focused_ok in E as [out ->]. repeat split; auto.
  - apply n_ranking_ok in E as [out ->]. repeat split; auto.
  - apply n_deduction_ok in E as [out ->]. repeat split; auto.
  - apply n_induction_ok in E as (d & op & it & ->). repeat split; auto.
Qed.

Lemma run_tasks_updates (g : graph) (P : state -> Prop) (s : state) :
  (forall name f w u w', lookup name (nodes g) = Some f ->
                         f s w = Ok (u, w') -> P u) ->
  forall active w us next w',
    run_tasks g s active w = Done us next w' ->
    Forall (fun nu => P (snd nu)) us.
Proof.
  intros Hg. induction active as [|name active IH]; simpl; intros w us next w' E.
  - inversion E. constructor.
  - destruct (lookup name (nodes g)) as [f|] eqn:Hl; [|discriminate].
    destruct (f s w) as [[u w1]|e] eqn:Hf; [|discriminate].
    destruct (targets g name (u ∪ s)) as [ts|e]; [|discriminate].
    destruct (run_tasks g s active w1) as [us' next' w2|] eqn:Hr; [|discriminate].
    inversion E; subst. apply List.Forall_cons.
    + exact (Hg _ _ _ _ _ Hl Hf).
    + exact (IH _ _ _ _ Hr).
Qed.

Lemma write_updates_keeps (s : state) (us : list (string * state)) :
  Forall (fun nu => keeps_inputs s (snd nu)) us ->
  forall acc written,
    keeps_inputs s acc ->
    write_updates us acc = inr written -> keeps_inputs s written.
Proof.
  induction 1 as [|[name u] us Hu _ IH]; simpl; intros acc written Hacc E.
  - inversion E; subst. exact Hacc.
  - destruct (decide (u ##ₘ acc)) as [_|_]; [|discriminate].
    apply (IH (u ∪ acc)); [|exact E].
    destruct Hu as (H1 & H2 & H3), Hacc as (A1 & A2 & A3). simpl in *.
    split; [apply lookup_union_None_2; assumption|].
    split; [apply lookup_union_None_2; assumption|].
    destruct (u !! "top_k") as [v|] eqn:Hv.
    + right. rewrite (lookup_union_Some_l u acc _ v Hv).
      destruct H3 as [H3|H3]; [discriminate | exact H3].
    + rewrite lookup_union_r by exact Hv. exact A3.
Qed.

Lemma keeps_inputs_written (s u : state) (k : string) :
  keeps_inputs s u -> In k inputs_keys -> (u ∪ s) !! k = s !! k.
Proof.
  intros (H1 & H2 & H3) Hk. simpl in Hk.
  destruct Hk as [<-|[<-|[<-|[]]]].
  - apply lookup_union_r, H1.
  - apply lookup_union_r, H2.
  - destruct (u !! "top_k") as [v|] eqn:Hv.
    + rewrite (lookup_union_Some_l u s _ v Hv).
      destruct H3 as [H3|H3]; [discriminate | auto].
    + apply lookup_union_r, Hv.
Qed.

Lemma inputs_keys_mapped (inputs : state) (k : string) :
  In k inputs_keys -> map_input inputs !! k = inputs !! k.
Proof.
  intros Hk. rewrite lookup_map_input. simpl in Hk.
  destruct Hk as [<-|[<-|[<-|[]]]]; reflexivity.
Qed.

Lemma supersteps_keep_inputs (log : log_file) (env : environment)
    (inputs : state) (limit : nat) :
  let ok := fun st : step =>
    keeps_inputs inputs (update st) /\
    forall k, In k inputs_keys -> values st !! k = inputs !! k in
  forall (active : list string) (s : state) (w : world) (trace : list step),
    (forall k, In k inputs_keys -> s !! k = inputs !! k) ->
    Forall ok trace ->
    Forall ok (steps_of (supersteps log limit (graph_definition env) active s w trace))
    /\ match supersteps log limit (graph_definition env) active s w trace with
       | Completed _ final _ =>
           forall k, In k inputs_keys -> final !! k = inputs !! k
       | _ => True
       end.
Proof.
  intros ok. induction limit as [|limit IH]; intros active s w trace Hs Ht.
  - destruct active; simpl; auto.
  - destruct active as [|a active']; [simpl; auto|].
    cbn [supersteps]. set (active := a :: active').
    destruct (run_tasks (graph_definition env) s active w)
      as [us next w'|name e] eqn:Hr; [|simpl; auto].
    assert (Hus : Forall (fun nu => keeps_inputs s (snd nu)) us).
    { apply (run_tasks_updates (graph_definition env) (keeps_inputs s) s)
        with (active := active) (w := w) (next := next) (w' := w');
        [|exact Hr].
      intros name f w0 u w1 Hl Hf. exact (nodes_keep_inputs env name f s u w0 w1 Hl Hf). }
    destruct (write_entries log (length trace) us); [simpl; auto|].
    destruct (write_updates us ∅) as [name|written] eqn:Hw; [simpl; auto|].
    assert (Hwr : keeps_inputs s written).
    { apply (write_updates_keeps s us Hus ∅ written); [|exact Hw].
      repeat split; auto. }
    assert (Hs' : forall k, In k inputs_keys -> (written ∪ s) !! k = inputs !! k).
    { intros k Hk. rewrite (keeps_inputs_written s written k Hwr Hk). auto. }
    apply IH; [exact Hs'|].
    apply Forall_app. split; [exact Ht|].
    apply Forall_map. eapply Forall_impl; [exact Hus|].
    intros [name u] Hu. simpl in *. split; [|exact Hs'].
    destruct Hu as (H1 & H2 & H3). split; [exact H1|]. split; [exact H2|].
    rewrite <- (Hs "top_k") by (simpl; auto). exact H3.
Qed.

(** Which node writes [top_k]. *)
Lemma nodes_write_top_k (env : environment) (name : string)
    (f : state -> M state) (s u : state) (w w' : world) :
  lookup name (nodes (graph_definition env)) = Some f ->
  f s w = Ok (u, w') ->
  u !! "top_k" = None \/ name = "abduction_unfocused".
Proof.
  intros Hl E. cbn in Hl.
  repeat match type of Hl with
         | (if ?b then _ else _) = _ => destruct b eqn:?
         end; inversion Hl; subst; clear Hl.
  - apply n_abstraction_ok in E as [l ->]. left. reflexivity.
  - right. now apply String.eqb_eq.
  - apply n_abduction_focused_ok in E as [out ->]. left. reflexivity.
  - apply n_ranking_ok in E as [out ->]. left. reflexivity.
  - apply n_deduction_ok in E as [out ->]. left. reflexivity.
  - apply n_induction_ok in E as (d & op & it & ->). left. reflexivity.
Qed.

Lemma run_tasks_named (g : graph) (P : string -> state -> Prop) (s : state) :
  (forall name f w u w', lookup name (nodes g) = Some f ->
                         f s w = Ok (u, w') -> P name u) ->
  forall active w us next w',
    run_tasks g s active w = Done us next w' ->
    Forall (fun nu => P (fst nu) (snd nu)) us.
Proof.
  intros Hg. induction active as [|name active IH]; simpl; intros w us next w' E.
  - inversion E. constructor.
  - destruct (lookup name (nodes g)) as [f|] eqn:Hl; [|discriminate].
    destruct (f s w) as [[u w1]|e] eqn:Hf; [|discriminate].
    destruct (targets g name (u ∪ s)) as [ts|e]; [|discriminate].
    destruct (run_tasks g s active w1) as [us' next' w2|] eqn:Hr; [|discriminate].
    inversion E; subst. apply List.Forall_cons.
    + exact (Hg _ _ _ _ _ Hl Hf).
    + exact (IH _ _ _ _ Hr).
Qed.

(** What holds of every node and its update holds of every step of a
    run. *)
Lemma supersteps_named (log : log_file) (g : graph)
    (P : string -> state -> Prop) (limit : nat) :
  (forall s name f w u w', lookup name (nodes g) = Some f ->
                           f s w = Ok (u, w') -> P name u) ->
  forall (active : list string) (s : state) (w : world) (trace : list step),
    Forall (fun st => P (node st) (update st)) trace ->
    Forall (fun st => P (node st) (update st))
           (steps_of (supersteps log limit g active s w trace)).
Proof.
  intros Hg. induction limit as [|limit IH]; intros active s w trace Ht.
  - destruct active; exact Ht.
  - destruct active as [|a active']; [exact Ht|].
    cbn [supersteps]. set (active := a :: active').
    destruct (run_tasks g s active w) as [us next w'|name e] eqn:Hr;
      [|exact Ht].
    destruct (write_entries log (length trace) us); [exact Ht|].
    destruct (write_updates us ∅) as [name|written]; [exact Ht|].
    apply IH. apply Forall_app. split; [exact Ht|].
    apply Forall_map. simpl.
    exact (run_tasks_named g P s (Hg s) active w us next w' Hr).
Qed.

(** C9. In a run of the graph no update writes [case_text] or [model];
    [top_k] is written again, by the update of AbductionUnfocused and by no
    other, with the value the run was given; so the three keep the values
    of the inputs in every state the run streams and in its final state. *)
Theorem inputs_keep_their_values (log : log_file) (env : environment)
    (inputs : state) (w : world) :
  let o := run_with_human_log log (graph_definition env) inputs w in
  Forall (fun st =>
            update st !! "case_text" = None /\
            update st !! "model" = None /\
            (update st !! "top_k" = None \/
             node st = "abduction_unfocused" /\
             update st !! "top_k" = inputs !! "top_k") /\
            forall k, In k inputs_keys -> values st !! k = inputs !! k)
         (steps_of o) /\
  match o with
  | Completed _ final _ =>
      forall k, In k inputs_keys -> final !! k = inputs !! k
  | _ => True
  end.
Proof.
  intros o. unfold o. rewrite run_from_entry.
  destruct (opening log); [split; [constructor | exact I]|].
  destruct (supersteps_keep_inputs log env inputs 60 ["abstraction"]
              (map_input inputs) w []
              (inputs_keys_mapped inputs) (@List.Forall_nil _ _)) as [H1 H2].
  pose proof (supersteps_named log (graph_definition env)
                (fun name u => u !! "top_k" = None \/
                               name = "abduction_unfocused") 60
                (fun s name f w0 u w1 => nodes_write_top_k env name f s u w0 w1)
                ["abstraction"] (map_input inputs) w []
                (@List.Forall_nil _ _)) as H3.
  split; [|exact H2].
  rewrite Forall_forall in H1, H3 |- *. intros st Hst.
  destruct (H1 st Hst) as [(A & B & C) D]. specialize (H3 st Hst).
  split; [exact A|]. split; [exact B|]. split; [|exact D].
  destruct C as [C|C]; [left; exact C|].
  destruct H3 as [H3|H3]; [left; exact H3 | right; split; assumption].
Qed.

(** The update of AbductionUnfocused in the scripted run writes [top_k]. *)
Lemma abduction_unfocused_writes_top_k :
  update_at Scenario.the_run 1 !! "top_k" = Some (JInt 10).
Proof. vm_compute. reflexivity. Qed.


(** ** Backend calls and random draws *)

Lemma call_llm_world (env : environment) (messages model : json)
    (fmt : schema) (w w' : world) (j : json) :
  call_llm env messages model fmt w = Ok (j, w') ->
  (calls w < calls w' <= calls w + 10)%nat /\ draws w' = draws w.
Proof.
  unfold call_llm, call_llm_retries. intros E.
  pose proof (attempts_spec env (Z.to_nat 10) 10
                {| req_model := model; req_messages := messages;
                   req_format := fmt |} w) as H.
  rewrite E in H. destruct H as (k & Hk & _ & _ & ->). simpl.
  change (Z.to_nat 10) with 10%nat in Hk. lia.
Qed.

(** X3. The capping at the end of [query_abduction_focused] never calls
    the backend.  When the answer has more hypotheses than [max_focused] it
    returns [max_focused] of them and takes at least that many random draws:
    exactly that many when the answer has no more than
    [setsize max_focused] hypotheses, which [random.sample] deals from a
    pool; above that a position that comes up again is drawn again.
    Otherwise it takes no draw and returns the answer itself. *)
Theorem capping_draws_top_k_numbers (env : environment)
    (answer max_focused out : json) (w w' : world) :
  cap_hypotheses env answer max_focused w = Ok (out, w') ->
  exists (hs : json) (n z : Z),
    getitem answer "hypotheses" = Ok hs /\
    py_len hs = Ok n /\
    as_int max_focused = Some z /\
    calls w' = calls w /\
    (if z <? n
     then 0 <= z /\
          (draws w + Z.to_nat z <= draws w')%nat /\
          (n <= Z.of_nat (setsize (Z.to_nat z)) ->
           draws w' = (draws w + Z.to_nat z)%nat) /\
          exists chosen, out = JDict [("hypotheses", JList chosen)] /\
                         length chosen = Z.to_nat z
     else draws w' = draws w /\ out = answer).
Proof.
  unfold cap_hypotheses. intros E.
  apply bind_ok in E as (hs & w1 & H1 & E). apply lift_ok in H1 as [H1 ->].
  apply bind_ok in E as (n & w1 & H2 & E). apply lift_ok in H2 as [H2 ->].
  apply bind_ok in E as (b & w1 & H3 & E). apply lift_ok in H3 as [H3 ->].
  unfold exceeds in H3.
  destruct (as_int max_focused) as [z|] eqn:Hz; [|discriminate].
  inversion H3; subst b; clear H3.
  exists hs, n, z. split; [exact H1|]. split; [exact H2|].
  split; [reflexivity|].
  destruct (z <? n) eqn:Hlt.
  - apply bind_ok in E as (chosen & w2 & Hs & E).
    apply ret_ok in E as [-> ->].
    apply random_sample_ok in Hs
      as (items & z' & Hit & Hz' & H0 & Hlen & Hc & Hge & Hex & _).
    assert (z' = z) as -> by congruence.
    pose proof (py_len_iter hs n items H2 Hit) as Hn.
    split; [exact Hc|]. split; [lia|]. split; [exact Hge|].
    split; [intros Hle; apply Hex; lia|].
    exists chosen. split; [reflexivity | exact Hlen].
  - apply ret_ok in E as [-> ->]. auto.
Qed.

(** A sample of 2 out of 3 hypotheses, drawn with the scripted random
    source. *)
Lemma capping_draws_top_k_numbers_witness :
  exists (out : json) (w' : world),
    cap_hypotheses Scenario.backend
      (JDict [("hypotheses", JList [JStr "a"; JStr "b"; JStr "c"])]) (JInt 2)
      {| calls := 1; draws := 0 |} = Ok (out, w') /\
    exists (hs : json) (n z : Z),
      getitem (JDict [("hypotheses", JList [JStr "a"; JStr "b"; JStr "c"])])
        "hypotheses" = Ok hs /\
      py_len hs = Ok n /\
      as_int (JInt 2) = Some z /\
      calls w' = 1%nat /\
      (if z <? n
       then 0 <= z /\
            (0 + Z.to_nat z <= draws w')%nat /\
            (n <= Z.of_nat (setsize (Z.to_nat z)) ->
             draws w' = (0 + Z.to_nat z)%nat) /\
            exists chosen, out = JDict [("hypotheses", JList chosen)] /\
                           length chosen = Z.to_nat z
       else draws w' = 0%nat /\
            out = JDict [("hypotheses", JList [JStr "a"; JStr "b"; JStr "c"])]).
Proof.
  eexists _, _. split; [vm_compute; reflexivity|].
  apply (capping_draws_top_k_numbers Scenario.backend
           (JDict [("hypotheses", JList [JStr "a"; JStr "b"; JStr "c"])])
           (JInt 2) _ {| calls := 1; draws := 0 |} _).
  vm_compute. reflexivity.
Defined.

(** Above [setsize]: 2 hypotheses out of 22, with a random source that
    gives every number twice, take 3 draws. *)
Lemma capping_above_setsize_draws_again :
  let env := {| chat := chat Scenario.backend;
                randbelow := fun i _ => (i / 2)%nat |} in
  let answer :=
    JDict [("hypotheses", JList (map (fun i => JInt (Z.of_nat i)) (seq 0 22)))] in
  cap_hypotheses env answer (JInt 2) {| calls := 1; draws := 0 |}
  = Ok (JDict [("hypotheses", JList [JInt 0; JInt 1])],
        {| calls := 1; draws := 3 |}).
Proof. vm_compute. reflexivity. Qed.

(** ** The path of a run, whatever its inputs *)

(** X1. Whatever the inputs, the backend and the log file, a run goes along
    the one path Abstraction, AbductionUnfocused, AbductionFocused, Ranking,
    Deduction, Induction, Ranking and never runs out of steps.  A complete
    run takes the first 4 steps when the inputs already carry an induction
    result not yet reranked, and all 7 otherwise; either way it ends with a
    [ranking] written and [reranked] true.  A run that a node or the
    writing of the log ends early has streamed a beginning of the path. *)
Theorem every_run_ends_on_the_path (log : log_file) (env : environment)
    (inputs : state) (w : world) :
  match run_with_human_log log (graph_definition env) inputs w with
  | Completed trace final _ =>
      map node trace = (if rerank_due inputs then take 4 seven_steps
                        else seven_steps) /\
      final !! "reranked" = Some (JBool true) /\
      (exists out, final !! "ranking" = Some out)
  | Aborted trace failing e =>
      exists rest, (map node trace ++ failing :: rest)%list = seven_steps
  | LogFailed trace e =>
      exists name rest, (map node trace ++ name :: rest)%list = seven_steps
  | OutOfSteps _ => False
  end.
Proof.
  pose proof (run_path log env inputs w) as P.
  destruct (run_with_human_log log (graph_definition env) inputs w);
    [|exact P|exact P|exact P].
  destruct P as (P1 & P2 & P3 & _). auto.
Qed.

Ltac one_call_tac :=
  repeat match goal with
         | H : lift _ _ = Ok _ |- _ => apply lift_ok in H as [_ ->]
         | H : ret _ _ = Ok _ |- _ => apply ret_ok in H as [_ ->]
         | H : bind _ _ _ = Ok _ |- _ =>
             let a := fresh "a" in
             let w := fresh "w" in
             let H1 := fresh "H" in
             apply bind_ok in H as (a & w & H1 & H)
         | H : call_llm _ _ _ _ _ = Ok _ |- _ =>
             apply call_llm_world in H as [? ?]
         end.

Lemma query_abstraction_world (env : environment) (case model it out : json)
    (w w' : world) :
  query_abstraction env case model it w = Ok (out, w') -> one_call w w'.
Proof.
  unfold query_abstraction, one_call. intros E. one_call_tac. lia.
Qed.

Lemma query_abduction_unfocused_world (env : environment)
    (case abstraction model mx it out : json) (w w' : world) :
  query_abduction_unfocused env case abstraction model mx it w = Ok (out, w') ->
  one_call w w'.
Proof.
  unfold query_abduction_unfocused, one_call. intros E.
  apply bind_ok in E as (a & w1 & H & E). apply lift_ok in H as [_ ->].
  apply call_llm_world in E. lia.
Qed.

Lemma query_abduction_focused_world (env : environment)
    (case abstraction unfocused model mx it out : json) (w w' : world) :
  query_abduction_focused env case abstraction unfocused model mx it w
  = Ok (out, w') ->
  one_call w w'.
Proof.
  unfold query_abduction_focused, one_call. intros E.
  apply bind_ok in E as (a & w1 & H & E). apply lift_ok in H as [_ ->].
  apply bind_ok in E as (b & w1 & H & E). apply lift_ok in H as [_ ->].
  apply bind_ok in E as (answer & w1 & H & E).
  apply call_llm_world in H as [Hc Hd].
  unfold cap_hypotheses in E.
  apply bind_ok in E as (hs & w2 & H1 & E). apply lift_ok in H1 as [_ ->].
  apply bind_ok in E as (n & w2 & H2 & E). apply lift_ok in H2 as [_ ->].
  apply bind_ok in E as (t & w2 & H3 & E). apply lift_ok in H3 as [_ ->].
  destruct t.
  - apply bind_ok in E as (chosen & w2 & Hs & E). apply ret_ok in E as [_ ->].
    apply random_sample_ok in Hs
      as (items & z & _ & _ & _ & _ & Hc' & Hd' & _). lia.
  - apply ret_ok in E as [_ ->]. lia.
Qed.

Lemma query_rank_hypotheses_world (env : environment)
    (case abduction model it out : json) (w w' : world) :
  query_rank_hypotheses env case abduction model it w = Ok (out, w') ->
  one_call w w'.
Proof.
  unfold query_rank_hypotheses, one_call. intros E. one_call_tac. lia.
Qed.

Lemma query_deduction_world (env : environment) (ranking model it out : json)
    (w w' : world) :
  query_deduction env ranking model it w = Ok (out, w') -> one_call w w'.
Proof.
  unfold query_deduction, one_call. intros E.
  repeat (apply bind_ok in E as (? & ? & H & E); apply lift_ok in H as [_ ->]).
  apply call_llm_world in E. lia.
Qed.

Lemma query_induction_world (env : environment) (case ded model it : json)
    (out : json * json) (w w' : world) :
  query_induction env case ded model it w = Ok (out, w') -> one_call w w'.
Proof.
  unfold query_induction, one_call. intros E. one_call_tac. lia.
Qed.

Lemma nodes_call_once (env : environment) (name : string)
    (f : state -> M state) (s u : state) (w w' : world) :
  lookup name (nodes (graph_definition env)) = Some f ->
  f s w = Ok (u, w') -> one_call w w'.
Proof.
  intros Hl E. cbn in Hl.
  repeat match type of Hl with
         | (if ?b then _ else _) = _ => destruct b
         end; inversion Hl; subst; clear Hl.
  - unfold n_abstraction in E.
    repeat (apply bind_ok in E as (? & ? & H & E);
            try (apply lift_ok in H as [_ ->])).
    apply ret_ok in E as [_ ->]. eapply query_abstraction_world; eauto.
  - unfold n_abduction_unfocused in E.
    repeat (apply bind_ok in E as (? & ? & H & E);
            try (apply lift_ok in H as [_ ->])).
    apply ret_ok in E as [_ ->]. eapply query_abduction_unfocused_world; eauto.
  - unfold n_abduction_focused in E.
    repeat (apply bind_ok in E as (? & ? & H & E);
            try (apply lift_ok in H as [_ ->])).
    apply ret_ok in E as [_ ->]. eapply query_abduction_focused_world; eauto.
  - unfold n_ranking in E.
    destruct (rerank_due s).
    + apply bind_ok in E as (? & ? & H & E); apply lift_ok in H as [_ ->].
      apply bind_ok in E as (? & ? & H & E); apply lift_ok in H as [_ ->].
      apply bind_ok in E as (? & ? & H & E); apply lift_ok in H as [_ ->].
      apply bind_ok in E as (? & ? & H & E); apply lift_ok in H as [_ ->].
      apply bind_ok in E as (? & ? & H & E).
      apply bind_ok in E as (? & ? & H' & E); apply lift_ok in H' as [_ ->].
      apply ret_ok in E as [_ ->]. eapply query_rank_hypotheses_world; eauto.
    + apply bind_ok in E as (? & ? & H & E); apply lift_ok in H as [_ ->].
      apply bind_ok in E as (? & ? & H & E); apply lift_ok in H as [_ ->].
      apply bind_ok in E as (? & ? & H & E).
      apply bind_ok in E as (? & ? & H' & E); apply lift_ok in H' as [_ ->].
      apply ret_ok in E as [_ ->]. eapply query_rank_hypotheses_world; eauto.
  - unfold n_deduction in E.
    apply bind_ok in E as (? & ? & H & E); apply lift_ok in H as [_ ->].
    apply bind_ok in E as (? & ? & H & E); apply lift_ok in H as [_ ->].
    apply bind_ok in E as (? & ? & H & E).
    apply ret_ok in E as [_ ->]. eapply query_deduction_world; eauto.
  - unfold n_induction in E.
    apply bind_ok in E as (? & ? & H & E); apply lift_ok in H as [_ ->].
    apply bind_ok in E as (? & ? & H & E); apply lift_ok in H as [_ ->].
    apply bind_ok in E as (? & ? & H & E); apply lift_ok in H as [_ ->].
    apply bind_ok in E as ([oa op] & ? & H & E).
    apply bind_ok in E as (? & ? & H' & E); apply lift_ok in H' as [_ ->].
    apply ret_ok in E as [_ ->]. eapply query_induction_world; eauto.
Qed.

Lemma run_tasks_world (g : graph) (s : state) :
  (forall name f w u w', lookup name (nodes g) = Some f ->
                         f s w = Ok (u, w') -> one_call w w') ->
  forall (active : list string) (w : world) us next w',
    run_tasks g s active w = Done us next w' ->
    length us = length active /\
    (calls w + length us <= calls w' <= calls w + 10 * length us)%nat /\
    (draws w <= draws w')%nat.
Proof.
  intros Hg. induction active as [|name active IH]; intros w us next w' E.
  - simpl in E. inversion E; subst. simpl. lia.
  - simpl in E.
    destruct (lookup name (nodes g)) as [f|] eqn:Hl; [|discriminate].
    destruct (f s w) as [[u w1]|e] eqn:Hf; [|discriminate].
    destruct (targets g name (u ∪ s)) as [ts|e]; [|discriminate].
    destruct (run_tasks g s active w1) as [us' next' w2|] eqn:Hr;
      [|discriminate].
    inversion E; subst.
    destruct (Hg name f w u w1 Hl Hf) as [H1 H2].
    apply IH in Hr as (H3 & H4 & H5). simpl. lia.
Qed.

Lemma supersteps_world (log : log_file) (g : graph) (limit : nat) :
  (forall s name f w u w', lookup name (nodes g) = Some f ->
                           f s w = Ok (u, w') -> one_call w w') ->
  forall (active : list string) (s : state) (w : world) (trace : list step),
    match supersteps log limit g active s w trace with
    | Completed trace' _ w' =>
        exists n, length trace' = (length trace + n)%nat /\
                  (calls w + n <= calls w' <= calls w + 10 * n)%nat /\
                  (draws w <= draws w')%nat
    | _ => True
    end.
Proof.
  intros Hg. induction limit as [|limit IH]; intros active s w trace.
  - destruct active; simpl; [|exact I]. exists 0%nat. lia.
  - destruct active as [|a active']; [simpl; exists 0%nat; lia|].
    cbn [supersteps]. set (active := a :: active').
    destruct (run_tasks g s active w) as [us next w1|name e] eqn:Hr;
      [|exact I].
    destruct (write_entries log (length trace) us); [exact I|].
    destruct (write_updates us ∅) as [name|written]; [exact I|].
    apply (run_tasks_world g s (Hg s)) in Hr as (H1 & H2 & H3).
    match goal with
    | |- match supersteps log limit g ?act ?s' ?w' ?tr with _ => _ end =>
        specialize (IH act s' w' tr);
        destruct (supersteps log limit g act s' w' tr) as [t f w2| | |]; auto
    end.
    destruct IH as (n & Hn & Hc & Hd).
    rewrite length_app, length_map in Hn.
    exists (length us + n)%nat. lia.
Qed.

(** X2. A complete run has called the backend at least once and at most 10
    times per step: between 4 and 70 times in all, 7 to 70 when the inputs
    carry no induction result to rerank. *)
Theorem backend_calls_of_a_run (log : log_file) (env : environment)
    (inputs : state) (w : world) :
  match run_with_human_log log (graph_definition env) inputs w with
  | Completed trace _ w' =>
      (calls w + length trace <= calls w' <= calls w + 10 * length trace)%nat /\
      length trace = (if rerank_due inputs then 4 else 7)%nat
  | _ => True
  end.
Proof.
  pose proof (run_path log env inputs w) as P.
  pose proof (supersteps_world log (graph_definition env) 60
                (fun s name f w0 u w1 => nodes_call_once env name f s u w0 w1)
                ["abstraction"] (map_input inputs) w []) as W.
  pose proof (run_from_entry log env inputs w) as R.
  destruct (opening log).
  - rewrite R. exact I.
  - rewrite <- R in W.
    destruct (run_with_human_log log (graph_definition env) inputs w)
      as [trace final w'| | |]; auto.
    destruct W as (n & Hn & Hc & _). simpl in Hn. subst n.
    split; [exact Hc|].
    destruct P as (P & _). apply (f_equal (@length string)) in P.
    rewrite length_map in P. rewrite P.
    destruct (rerank_due inputs); reflexivity.
Qed.

(** X4. A run whose inputs have no [top_k] does not get past
    AbductionUnfocused and does not complete.  It ends before any step is
    streamed, when the log file cannot be opened or written or Abstraction
    raises; otherwise, Abstraction done and logged, it is aborted at step 2
    by [KeyError] on [top_k], the backend call of step 1 being spent. *)
Theorem run_without_top_k_aborts (log : log_file) (env : environment)
    (inputs : state) (w : world) :
  inputs !! "top_k" = None ->
  match run_with_human_log log (graph_definition env) inputs w with
  | Aborted trace failing e =>
      (trace = [] /\ failing = "abstraction") \/
      (map node trace = ["abstraction"] /\ failing = "abduction_unfocused" /\
       e = KeyError "top_k")
  | LogFailed trace e => trace = []
  | _ => False
  end.
Proof.
  intros Hk.
  destruct (lookup_nodes env) as (L1 & L2 & _).
  rewrite run_from_entry. destruct (opening log); [reflexivity|].
  rewrite (supersteps_single _ _ _ _ _ _ _ _ L1).
  destruct (n_abstraction env (map_input inputs) w) as [[u1 w1]|e] eqn:E1;
    [|left; auto].
  apply n_abstraction_ok in E1 as [l ->].
  rewrite targets_abstraction.
  rewrite (get_union_l _ _ _ (JList l)) by apply lookup_singleton_eq.
  cbn [is_not_none]. change (remove_dups _) with ["abduction_unfocused"].
  destruct (writing log _ _ _); [reflexivity|].
  rewrite (supersteps_single _ _ _ _ _ _ _ _ L2).
  assert (E2 : n_abduction_unfocused env
                 ({[ "abstraction" := JList l ]} ∪ map_input inputs) w1
               = Raise (KeyError "top_k")).
  { unfold n_abduction_unfocused, bind, lift, item.
    rewrite lookup_union_r by (by simplify_map_eq).
    rewrite lookup_map_input, Hk. reflexivity. }
  rewrite E2. right. auto.
Qed.

(** The inputs of [main.py] without [top_k], with a log file that takes
    every entry. *)
Lemma run_without_top_k_aborts_witness :
  delete "top_k" Scenario.inputs !! "top_k" = None /\
  match run_with_human_log Scenario.quiet (graph_definition Scenario.backend)
          (delete "top_k" Scenario.inputs) Scenario.start with
  | Aborted trace failing e =>
      (trace = [] /\ failing = "abstraction") \/
      (map node trace = ["abstraction"] /\ failing = "abduction_unfocused" /\
       e = KeyError "top_k")
  | LogFailed trace e => trace = []
  | _ => False
  end.
Proof.
  split; [apply lookup_delete_eq|].
  apply (run_without_top_k_aborts Scenario.quiet Scenario.backend
           (delete "top_k" Scenario.inputs) Scenario.start).
  apply lookup_delete_eq.
Defined.

(** X5. Induction counts the iteration: it writes [iter] as one more than
    the [iter] it finds, an absent [iter] counting as 0. *)
Theorem induction_counts_the_iteration (env : environment) (s u : state)
    (w w' : world) :
  n_induction env s w = Ok (u, w') ->
  exists z, as_int (get s "iter" (JInt 0)) = Some z /\
            u !! "iter" = Some (JInt (z + 1)).
Proof.
  unfold n_induction. intros E.
  apply bind_ok in E as (? & ? & H & E); apply lift_ok in H as [_ ->].
  apply bind_ok in E as (? & ? & H & E); apply lift_ok in H as [_ ->].
  apply bind_ok in E as (? & ? & H & E); apply lift_ok in H as [_ ->].
  apply bind_ok in E as ([oa op] & ? & H & E).
  apply bind_ok in E as (nx & ? & Hp & E); apply lift_ok in Hp as [Hp ->].
  apply ret_ok in E as [-> _].
  unfold plus_one in Hp.
  destruct (as_int (get s "iter" (JInt 0))) as [z|]; [|discriminate].
  inversion Hp; subst. exists z. split; [reflexivity|]. by simplify_map_eq.
Qed.

(** The Induction step of the scripted run: [iter] goes from 0 to 1. *)
Lemma induction_counts_the_iteration_witness :
  let r := n_induction Scenario.backend (Scenario.state_after 4)
             {| calls := 5; draws := 10 |} in
  succeeded r = true /\
  exists z, as_int (get (Scenario.state_after 4) "iter" (JInt 0)) = Some z /\
            update_of r !! "iter" = Some (JInt (z + 1)).
Proof.
  intros r.
  assert (H : succeeded r = true) by (vm_compute; reflexivity).
  split; [exact H|].
  exact (induction_counts_the_iteration Scenario.backend
           (Scenario.state_after 4) (update_of r)
           {| calls := 5; draws := 10 |} (world_of r) (succeeded_eta r H)).
Defined.

Lemma succeeded_returned {A} (dflt : A) (r : result A) :
  succeeded r = true -> r = Ok (returned dflt r).
Proof. destruct r; [reflexivity | discriminate]. Qed.

Lemma succeeded_pair {A B} (dflt : A * B) (r : result (A * B)) :
  succeeded r = true ->
  r = Ok (fst (returned dflt r), snd (returned dflt r)).
Proof. destruct r as [[a b]|e]; [reflexivity | discriminate]. Qed.


(** ** Sorting twice *)

Lemma insert_by_head (x y : Z * json) (l : list (Z * json)) :
  fst x <= fst y -> insert_by x (y :: l) = x :: y :: l.
Proof. intros H. simpl. apply Z.leb_le in H. now rewrite H. Qed.

Lemma stable_sort_of_sorted (l : list (Z * json)) :
  Sorted (fun a b => fst a <= fst b) l -> stable_sort l = l.
Proof.
  induction 1 as [|x l Hs IH Hd]; [reflexivity|].
  unfold stable_sort in *. simpl. rewrite IH.
  destruct Hd as [|y l Hxy]; [reflexivity|]. now apply insert_by_head.
Qed.

Lemma stable_sort_twice (l : list (Z * json)) :
  stable_sort (stable_sort l) = stable_sort l.
Proof. apply stable_sort_of_sorted, stable_sort_sorted. Qed.

(** The two ways [sort_by_rank] returns: every rank is a number and the
    list is ordered by these numbers, or there is at most one element and no
    key is compared. *)
Lemma sort_by_rank_cases (l l' : list json) :
  sort_by_rank l = Ok l' ->
  (exists zl, Forall2 (fun d zv => rank_of d = Some (fst zv) /\ snd zv = d) l zl /\
              l' = map snd (stable_sort zl)) \/
  ((length l <= 1)%nat /\ l' = l).
Proof.
  unfold sort_by_rank. intros E.
  apply rbind_ok in E as (keyed & Hk & E).
  apply rmap_keyed in Hk as [Hsnd Hkeys].
  unfold sort_keyed in E.
  destruct (rmap _ keyed) as [zl|e] eqn:Hz.
  - left. exists zl. inversion E; subst l'. split; [|reflexivity].
    apply keys_as_int in Hz as [_ Hrel]. subst l.
    clear E. induction Hrel as [|kv zv keyed zl [H1 H2] _ IH]; simpl.
    + constructor.
    + inversion Hkeys; subst. constructor; [|now apply IH].
      split; [|now symmetry]. unfold rank_of. now rewrite H3.
  - right. subst l.
    destruct keyed as [|kv [|kv' keyed]].
    + inversion E. split; [simpl; lia | reflexivity].
    + inversion E. split; [simpl; lia | reflexivity].
    + destruct (_ || _); discriminate.
Qed.

Lemma sort_by_rank_numbers (l : list json) (zl : list (Z * json)) :
  Forall2 (fun d zv => rank_of d = Some (fst zv) /\ snd zv = d) l zl ->
  sort_by_rank l = Ok (map snd (stable_sort zl)).
Proof.
  intros H. unfold sort_by_rank.
  assert (G : exists keyed,
             rmap (fun d => let? r := position_rank d in Ok (r, d)) l = Ok keyed /\
             rmap (fun kv : json * json =>
                     match as_int (fst kv) with
                     | Some z => Ok (z, snd kv)
                     | None => Raise TypeError
                     end) keyed = Ok zl).
  { induction H as [|d [z d'] l zl [H1 H2] _ (keyed & IH1 & IH2)]; simpl in *.
    - exists []. split; reflexivity.
    - subst d'. unfold rank_of in H1.
      destruct (position_rank d) as [r|] eqn:Hr; [|discriminate].
      exists ((r, d) :: keyed). simpl. rewrite IH1, IH2. simpl. rewrite H1.
      split; reflexivity. }
  destruct G as (keyed & -> & G). simpl. unfold sort_keyed. now rewrite G.
Qed.

Lemma sorted_keys_agree (l : list json) (zl : list (Z * json)) :
  Forall2 (fun d zv => rank_of d = Some (fst zv) /\ snd zv = d) l zl ->
  Forall (fun zv => rank_of (snd zv) = Some (fst zv)) (stable_sort zl).
Proof.
  intros H.
  assert (G : Forall (fun zv => rank_of (snd zv) = Some (fst zv)) zl).
  { induction H as [|d zv l zl [H1 H2] _ IH]; constructor; auto.
    now rewrite H2. }
  rewrite List.Forall_forall in G |- *. intros zv Hin. apply G.
  eapply Permutation_in; [apply stable_sort_perm | exact Hin].
Qed.

Lemma keys_agree_Forall2 (zl : list (Z * json)) :
  Forall (fun zv => rank_of (snd zv) = Some (fst zv)) zl ->
  Forall2 (fun d zv => rank_of d = Some (fst zv) /\ snd zv = d) (map snd zl) zl.
Proof. induction 1; simpl; constructor; auto. Qed.

Lemma sort_by_rank_twice (l l' : list json) :
  sort_by_rank l = Ok l' -> sort_by_rank l' = Ok l'.
Proof.
  intros E. destruct (sort_by_rank_cases l l' E) as [(zl & Hzl & ->)|[_ ->]];
    [|exact E].
  rewrite (sort_by_rank_numbers _ (stable_sort zl)).
  - now rewrite stable_sort_twice.
  - apply keys_agree_Forall2. eapply sorted_keys_agree, Hzl.
Qed.

(** X7. The second sort is idle: what [query_rank_hypotheses] returns is
    sorted already, so the [sort] that [n_ranking] applies to it leaves it
    as it is. *)
Theorem sort_in_n_ranking_changes_nothing (env : environment)
    (case abduction_output model iteration out : json) (w w' : world) :
  query_rank_hypotheses env case abduction_output model iteration w
  = Ok (out, w') ->
  sort_hypotheses out = Ok out.
Proof.
  unfold query_rank_hypotheses. intros E.
  apply bind_ok in E as (req & w1 & H & E). apply lift_ok in H as [_ ->].
  apply bind_ok in E as (answer & w1 & _ & E).
  apply bind_ok in E as (ranked & w2 & H & E). apply lift_ok in H as [H ->].
  apply ret_ok in E as [-> _].
  apply rbind_ok in H as (hs & _ & H).
  apply rbind_ok in H as (hl & _ & H).
  apply sort_by_rank_twice in H.
  unfold sort_hypotheses. simpl. rewrite H. reflexivity.
Qed.

(** The first Ranking step of the scripted run. *)
Lemma sort_in_n_ranking_changes_nothing_witness :
  let r := query_rank_hypotheses Scenario.backend (JStr "a case")
             (get (Scenario.state_after 2) "abduction_focused" JNull)
             (JStr "gpt-oss:20b") (JInt 0) {| calls := 3; draws := 10 |} in
  succeeded r = true /\
  sort_hypotheses (fst (returned (JNull, Scenario.start) r))
  = Ok (fst (returned (JNull, Scenario.start) r)).
Proof.
  intros r.
  assert (H : succeeded r = true) by (vm_compute; reflexivity).
  split; [exact H|].
  exact (sort_in_n_ranking_changes_nothing Scenario.backend (JStr "a case")
           (get (Scenario.state_after 2) "abduction_focused" JNull)
           (JStr "gpt-oss:20b") (JInt 0)
           (fst (returned (JNull, Scenario.start) r))
           {| calls := 3; draws := 10 |}
           (snd (returned (JNull, Scenario.start) r))
           (succeeded_pair (JNull, Scenario.start) r H)).
Defined.

(** ** The pure steps of the phases *)

Lemma rmap_total {A B} (f : A -> result B) (l : list A) :
  Forall (fun x => exists y, f x = Ok y) l -> exists l', rmap f l = Ok l'.
Proof.
  induction 1 as [|x l [y Hy] _ [l' IH]]; simpl.
  - eexists; reflexivity.
  - rewrite Hy, IH. simpl. eexists; reflexivity.
Qed.




Lemma conforms_object (fields : list (string * schema)) (j : json) :
  conforms (SObject fields) j = true ->
  exists d, j = JDict d /\
            Forall (fun ks => exists v, assoc (fst ks) d = Some v /\
                                        conforms (snd ks) v = true) fields.
Proof.
  destruct j as [| | | | |d]; simpl; try discriminate.
  intros H. exists d. split; [reflexivity|].
  induction fields as [|[k s] fields IH]; [constructor|].
  apply andb_prop in H as [H1 H2].
  constructor; [|now apply IH].
  simpl. destruct (assoc k d) as [v|]; [eauto | discriminate].
Qed.

Lemma conforms_list (item : schema) (lo hi : option nat) (j : json) :
  conforms (SArray item lo hi) j = true ->
  exists l, j = JList l /\ Forall (fun x => conforms item x = true) l.
Proof.
  destruct j as [| | | |l|]; simpl; try discriminate.
  intros H. apply andb_prop in H as [_ H]. exists l. split; [reflexivity|].
  apply List.Forall_forall. intros x Hx.
  rewrite forallb_forall in H. now apply H.
Qed.

(** X9. An answer that is valid for the schema of the Abstraction phase is
    always flattened: the post-processing raises on no such answer. *)
Theorem valid_abstractions_are_flattened (answer : json) :
  conforms AbstractionFeaturesList answer = true ->
  exists items, abstraction_postprocessing answer = Ok (JList items).
Proof.
  intros H. apply conforms_object in H as (d & -> & H).
  inversion H as [|? ? (fs & Hfs & Hc) _]; subst. cbn [fst snd] in Hfs, Hc.
  apply conforms_list in Hc as (features & -> & Hfeat).
  unfold abstraction_postprocessing, getitem. rewrite Hfs. simpl.
  match goal with
  | |- exists items, rbind (rmap ?f features) _ = _ =>
      destruct (rmap_total f features) as [groups Hg]
  end.
  - eapply Forall_impl; [exact Hfeat|]. intros feature Hf.
    apply conforms_object in Hf as (fd & -> & Hf).
    inversion Hf as [|? ? (c & Hc & _) Hf']; subst.
    inversion Hf' as [|? ? (fl & Hfl & Hfl') _]; subst.
    cbn [fst snd] in Hc, Hfl, Hfl'.
    apply conforms_list in Hfl' as (findings & -> & Hfind).
    unfold getitem. rewrite Hc, Hfl. simpl.
    apply rmap_total.
    eapply Forall_impl; [exact Hfind|]. intros f Hf1.
    apply conforms_object in Hf1 as (d1 & -> & Hf1).
    inversion Hf1 as [|? ? (x & Hx & _) Hf2]; subst.
    inversion Hf2 as [|? ? (e & He & _) _]; subst.
    cbn [fst snd] in Hx, He. rewrite Hx, He. simpl. eauto.
  - rewrite Hg. simpl. eauto.
Qed.

(** The answer of the scripted backend to the Abstraction request. *)
Lemma valid_abstractions_are_flattened_witness :
  let answer :=
    JDict [("features",
            JList [JDict [("category", JStr "Allergies");
                          ("findings",
                           JList [JDict [("finding", JStr "rash");
                                         ("explanation", JStr "seen")]])]])] in
  conforms AbstractionFeaturesList answer = true /\
  exists items, abstraction_postprocessing answer = Ok (JList items).
Proof.
  intros answer.
  assert (H : conforms AbstractionFeaturesList answer = true) by reflexivity.
  split; [exact H|]. exact (valid_abstractions_are_flattened answer H).
Defined.

Lemma foldl_raise {A B} (f : result A -> B -> result A) (l : list B) (e : exn) :
  (forall b, f (Raise e) b = Raise e) -> foldl f (Raise e) l = Raise e.
Proof. intros Hf. induction l as [|b l IH]; simpl; [reflexivity|]. now rewrite Hf. Qed.

(** X10. Every evaluated finding is counted once: the three lists of
    [summarize_evaluated_findings] have one line for each finding whose
    status is, in any letter case, "confirmed", one for each that is
    "contradicted", and one for each other finding, a status that is
    missing, empty or unknown counting as not observed. *)
Theorem findings_are_counted_by_status (findings : json)
    (confirmed contradicted not_observed : list json) :
  summarize_evaluated_findings findings
  = Ok (confirmed, contradicted, not_observed) ->
  exists l,
    (if truthy findings then py_iter findings else Ok []) = Ok l /\
    length confirmed
    = length (List.filter (fun f => String.eqb (status_of f) "confirmed") l) /\
    length contradicted
    = length (List.filter (fun f => String.eqb (status_of f) "contradicted") l) /\
    (length confirmed + length contradicted + length not_observed
     = length l)%nat.
Proof.
  unfold summarize_evaluated_findings. intros E.
  apply rbind_ok in E as (l & Hl & E). exists l. split; [exact Hl|].
  match type of E with
  | foldl ?step _ _ = _ =>
      assert (G : forall l c0 t0 m0 c t m,
                 foldl step (Ok (c0, t0, m0)) l = Ok (c, t, m) ->
                 (length c = length c0 + length (List.filter
                    (fun x => String.eqb (status_of x) "confirmed") l))%nat /\
                 (length t = length t0 + length (List.filter
                    (fun x => String.eqb (status_of x) "contradicted") l))%nat /\
                 (length c + length t + length m
                  = length c0 + length t0 + length m0 + length l)%nat)
  end.
  { clear. induction l as [|f l IH]; intros c0 t0 m0 c t m E.
    - simpl in E. inversion E; subst. simpl. lia.
    - cbn [foldl] in E.
      match type of E with
      | foldl ?g ?a l = _ => destruct a as [[[c1 t1] m1]|e] eqn:Ha
      end.
      2:{ rewrite foldl_raise in E by reflexivity. discriminate. }
      apply IH in E as (E1 & E2 & E3).
      cbn [rbind] in Ha.
      destruct (dict_get f "description" (JStr "")) as [desc|]; [|discriminate].
      destruct (dict_get f "comment" (JStr "")) as [comm|]; [|discriminate].
      cbn [rbind] in Ha.
      assert (Hst : exists st,
                 status_of f = st /\
                 (if String.eqb st "confirmed"
                  then Ok ((c0 ++ [JList (desc :: if truthy comm then [comm] else [])])%list, t0, m0)
                  else if String.eqb st "contradicted"
                  then Ok (c0, (t0 ++ [JList (desc :: if truthy comm then [comm] else [])])%list, m0)
                  else Ok (c0, t0, (m0 ++ [JList (desc :: if truthy comm then [comm] else [])])%list))
                 = Ok (c1, t1, m1)).
      { unfold status_of.
        destruct (dict_get f "status" JNull) as [status|]; [|discriminate].
        cbn [rbind] in Ha.
        destruct (truthy status) eqn:Ht.
        - destruct status; try discriminate. eexists; split; [reflexivity|].
          exact Ha.
        - exists "". split; [|exact Ha].
          destruct status as [| | |s| |]; try reflexivity.
          simpl in Ht. destruct (String.eqb_spec s ""); [now subst | discriminate]. }
      destruct Hst as (st & Hs & Hst). cbn [List.filter]. rewrite Hs. clear Hs.
      destruct (String.eqb st "confirmed") eqn:H1.
      + inversion Hst; subst. rewrite length_app in *.
        apply String.eqb_eq in H1. subst st. simpl in *. lia.
      + destruct (String.eqb st "contradicted") eqn:H2;
          inversion Hst; subst; rewrite ?length_app in *; simpl in *; lia. }
  apply G in E as (E1 & E2 & E3). simpl in *. lia.
Qed.

(** Four findings: confirmed in capitals, contradicted, unknown and without
    a status. *)
Lemma findings_are_counted_by_status_witness :
  let finding := fun (x : string) (st : list (string * json)) =>
    JDict (("description", JStr x) :: st) in
  let findings :=
    JList [finding "a" [("status", JStr "CONFIRMED")];
           finding "b" [("status", JStr "contradicted")];
           finding "c" [("status", JStr "unclear")];
           finding "d" []] in
  exists confirmed contradicted not_observed,
    summarize_evaluated_findings findings
    = Ok (confirmed, contradicted, not_observed) /\
    length confirmed = 1%nat /\ length contradicted = 1%nat /\
    length not_observed = 2%nat /\
    exists l,
      (if truthy findings then py_iter findings else Ok []) = Ok l /\
      length confirmed
      = length (List.filter (fun f => String.eqb (status_of f) "confirmed") l) /\
      length contradicted
      = length (List.filter (fun f => String.eqb (status_of f) "contradicted") l) /\
      (length confirmed + length contradicted + length not_observed
       = length l)%nat.
Proof.
  intros finding findings. eexists _, _, _.
  split; [reflexivity|]. split; [reflexivity|]. split; [reflexivity|].
  split; [reflexivity|].
  apply (findings_are_counted_by_status findings). reflexivity.
Defined.

Lemma plausible_fold (l : list json) :
  forall acc : list json,
    foldl (fun acc diagnosis =>
             let? kept := acc in
             let? evaluation := getitem diagnosis "evaluation" in
             if eq_str evaluation "plausible"
             then Ok ((kept ++ [diagnosis])%list)
             else Ok kept) (Ok acc) l
    = if forallb (fun h => succeeded (getitem h "evaluation")) l
      then Ok (acc ++ List.filter is_plausible l)%list
      else match List.find (fun h => negb (succeeded (getitem h "evaluation"))) l with
           | Some h => match getitem h "evaluation" with
                       | Raise e => Raise e
                       | Ok _ => Ok []
                       end
           | None => Ok []
           end.
Proof.
  induction l as [|h l IH]; intros acc; simpl.
  - now rewrite app_nil_r.
  - unfold is_plausible.
    destruct (getitem h "evaluation") as [e|e] eqn:He; simpl.
    + destruct (eq_str e "plausible"); rewrite IH;
        destruct (forallb _ l); try reflexivity.
      now rewrite <- app_assoc.
    + rewrite He. apply foldl_raise. reflexivity.
Qed.

(** X11. The plausible hypotheses are the answer's hypotheses filtered by
    [evaluation == "plausible"], in their order, provided every hypothesis,
    plausible or not, has an [evaluation] to read; otherwise the loop fails
    as a whole with the exception of a hypothesis that has none. *)
Theorem plausible_hypotheses_are_filtered (hypotheses : list json) :
  match plausible_only hypotheses with
  | Ok kept =>
      kept = List.filter is_plausible hypotheses /\
      Forall (fun h => exists e, getitem h "evaluation" = Ok e) hypotheses
  | Raise e =>
      exists h, In h hypotheses /\ getitem h "evaluation" = Raise e
  end.
Proof.
  unfold plausible_only. rewrite plausible_fold. simpl.
  destruct (forallb _ hypotheses) eqn:Hall.
  - split; [reflexivity|].
    apply List.Forall_forall. intros h Hh.
    rewrite forallb_forall in Hall. specialize (Hall h Hh).
    destruct (getitem h "evaluation"); [eauto | discriminate].
  - destruct (List.find _ hypotheses) as [h|] eqn:Hf.
    + apply find_some in Hf as [Hin Hf].
      destruct (getitem h "evaluation") as [v|e] eqn:He; [discriminate|].
      exists h. split; [exact Hin | exact He].
    + exfalso.
      assert (forallb (fun h => succeeded (getitem h "evaluation")) hypotheses
              = true); [|congruence].
      apply forallb_forall. intros h Hh.
      pose proof (find_none _ _ Hf h Hh) as Hn. simpl in Hn.
      now apply negb_false_iff in Hn.
Qed.
